(** * Transaction lifecycle and session multiplexing of the MCP PostgreSQL server

    A shallow embedding of [src/index.ts]: the tool handlers
    [execute_dml_ddl_dcl_tcl], [execute_commit] and [execute_rollback]
    registered by [createServer], and the HTTP session multiplexer
    ([app.post("/mcp")], [handleSessionRequest], the [onclose] and
    [onsessioninitialized] callbacks).

    JavaScript runs one handler at a time and switches handlers only at an
    [await].  A handler is therefore embedded as the sequence of its
    synchronous segments: each segment is a function on the shared state,
    and whatever was awaited comes back as an argument of the next
    segment. *)

From stdpp Require Import base gmap strings pretty list.

Open Scope Z_scope.

(** ** Tool results *)

(** [{ type: "text", text }] *)
Inductive Content := Text (text : string).

(** [{ isError?, content }]; an absent [isError] is read as [false]. *)
Record ToolResult := { isError : bool; content : list Content }.

(** [{ isError: true, content: [{ type: "text", text: message }] }] *)
Definition error_result (message : string) : ToolResult :=
  {| isError := true; content := [Text message] |}.

(** [{ content: [{ type: "text", text }] }] *)
Definition text_result (text : string) : ToolResult :=
  {| isError := false; content := [Text text] |}.

(** [transformHandlerResponse] on a result object with a [content] list:
    every text item is rebuilt from its [text]; the other fields of the
    result are kept. *)
Definition transformHandlerResponse (result : ToolResult) : ToolResult :=
  {| isError := isError result;
     content := map (fun item => match item with Text t => Text t end) (content result) |}.

(** What an [await] hands back: the value of the promise, or the [message]
    of the error it was rejected with (read by [(err as Error).message]). *)
Inductive Awaited (A : Type) :=
| Fulfilled (value : A)
| RejectedWith (message : string).
Arguments Fulfilled {A} value.
Arguments RejectedWith {A} message.

(** ** Connections, transactions and the shared state *)

(** A pooled connection ([pg.PoolClient]), by identity. *)
Abbreviation Client := nat (only parsing).

(** Calls that reach the pool or one of its connections, oldest first. *)
Inductive PoolEvent :=
| Acquire (c : Client)                 (* pool.connect() yielded c *)
| Query (c : Client) (sql : string)    (* c.query(sql) *)
| Release (c : Client).                (* c.release() *)

#[global] Instance PoolEvent_eq_dec : EqDecision PoolEvent.
Proof. solve_decision. Defined.

(** The transaction object the handlers read and write ([tx.client],
    [tx.released]); [createdAt] is the creation timestamp of the data
    model. *)
Record Transaction := {
  client : Client;
  createdAt : Z;
  released : bool;
}.

(** Transaction objects are shared by reference: the registry stores a
    reference, and [const tx = getTransaction(id)!] holds the same object
    across the [await], also after the entry has left the registry.  A
    reference in the source always leads to its object; where a definition
    below has a branch for a reference that leads nowhere, the branch
    stands for no path of the source. *)
Abbreviation TxRef := nat (only parsing).

Record World := {
  transactions : gmap string TxRef;   (* the TransactionManager's entries *)
  heap : list Transaction;            (* the transaction objects *)
  pool_log : list PoolEvent;          (* calls on the pool, oldest first *)
}.

(** [config]: the fields [index.ts] reads. *)
Record Config := {
  maxConcurrentTransactions : Z;
  transactionTimeoutMs : Z;
  monitorIntervalMs : Z;
  enableTransactionMonitor : bool;
}.

(** ** TransactionManager *)

(** Modelled from the spec: [lib/transaction-manager.ts] is missing; section
    4.1 gives [has(id) -> bool]. *)
Definition hasTransaction (w : World) (id : string) : bool :=
  bool_decide (is_Some (transactions w !! id)).

(** Modelled from the spec: [lib/transaction-manager.ts] is missing; section
    4.1 gives [get(id) -> Transaction | NotFound].  The result is the
    reference held by the registry. *)
Definition getTransaction (w : World) (id : string) : option TxRef :=
  transactions w !! id.

(** Modelled from the spec: [lib/transaction-manager.ts] is missing; section
    4.1 gives [remove(id)], a no-op on an absent id. *)
Definition removeTransaction (id : string) (w : World) : World :=
  {| transactions := delete id (transactions w);
     heap := heap w;
     pool_log := pool_log w |}.

(** Modelled from the spec: [lib/transaction-manager.ts] is missing; section
    4.1 gives [count() -> int], the number of tracked transactions. *)
Definition transactionCount (w : World) : Z :=
  Z.of_nat (size (transactions w)).

(** The transaction object once [released] has been set. *)
Definition mark_released (t : Transaction) : Transaction :=
  {| client := client t; createdAt := createdAt t; released := true |}.

(** [tx.released = true] on the object behind [tx]. *)
Definition set_released (tx : TxRef) (w : World) : World :=
  {| transactions := transactions w;
     heap := alter mark_released tx (heap w);
     pool_log := pool_log w |}.

(** [client.query(sql)]: the statement is sent; its outcome arrives when
    the promise settles. *)
Definition client_query (c : Client) (sql : string) (w : World) : World :=
  {| transactions := transactions w;
     heap := heap w;
     pool_log := pool_log w ++ [Query c sql] |}.

(** Modelled from the spec: [lib/utils.ts] is missing; section 6 gives the
    pool's [release(connection)], which [safelyReleaseClient] invokes on the
    connection it is handed. *)
Definition safelyReleaseClient (c : Client) (w : World) : World :=
  {| transactions := transactions w;
     heap := heap w;
     pool_log := pool_log w ++ [Release c] |}.

(** How often connection [c] was handed back to the pool. *)
Definition release_count (c : Client) (w : World) : nat :=
  length (filter (fun e => e = Release c) (pool_log w)).

(** ** Tool handlers of [createServer] *)

(** [execute_dml_ddl_dcl_tcl].  [handleExecuteDML] lives in
    [lib/tool-handlers.ts], which is missing, and is taken as a parameter:
    it receives the timeout and the statement, works on the pool and the
    registry, and its promise is awaited. *)
Definition execute_dml_ddl_dcl_tcl (config : Config)
    (handleExecuteDML : Z -> string -> World -> World * Awaited ToolResult)
    (sql : string) (w : World) : World * ToolResult :=
  if bool_decide (maxConcurrentTransactions config <= transactionCount w) then
    (w, error_result ("Limit reached (" +:+ pretty (maxConcurrentTransactions config)
                        +:+ "). Try later."))
  else
    match handleExecuteDML (transactionTimeoutMs config) sql w with
    | (w', Fulfilled result) => (w', transformHandlerResponse result)
    | (w', RejectedWith message) => (w', error_result message)
    end.

(** [execute_commit]; [handleExecuteCommit] is a parameter for the same
    reason. *)
Definition execute_commit
    (handleExecuteCommit : string -> World -> World * Awaited ToolResult)
    (transaction_id : string) (w : World) : World * ToolResult :=
  match handleExecuteCommit transaction_id w with
  | (w', Fulfilled result) => (w', transformHandlerResponse result)
  | (w', RejectedWith message) => (w', error_result message)
  end.

(** Where [execute_rollback] stands when its first synchronous segment
    ends: it has returned, or it is suspended at
    [await tx.client.query("ROLLBACK")] holding [tx] and [transaction_id]. *)
Inductive RollbackState :=
| Returned (result : ToolResult)
| AwaitingRollback (tx : TxRef) (transaction_id : string).

(** Reading a property of [undefined] throws; the [catch] turns it into an
    error result. *)
Definition undefined_read (property : string) : ToolResult :=
  error_result ("Cannot read properties of undefined (reading '" +:+ property +:+ "')").

(** [execute_rollback], from the call to the [await]. *)
Definition rollback_begin (transaction_id : string) (w : World) : World * RollbackState :=
  if negb (hasTransaction w transaction_id) then
    (w, Returned (error_result ("Transaction not found: " +:+ transaction_id)))
  else
    match getTransaction w transaction_id with
    | None => (w, Returned (undefined_read "released"))
    | Some tx =>
        match heap w !! tx with
        | None => (w, Returned (undefined_read "released"))
        | Some t =>
            if released t then
              (removeTransaction transaction_id w,
               Returned (error_result ("Already released: " +:+ transaction_id)))
            else
              (client_query (client t) "ROLLBACK" w, AwaitingRollback tx transaction_id)
        end
    end.

(** [execute_rollback], from the settled [await] to the end.  [settled] is
    what the [ROLLBACK] query came back with; [w] is the state found on
    resumption. *)
Definition rollback_resume (tx : TxRef) (transaction_id : string)
    (settled : Awaited unit) (w : World) : World * ToolResult :=
  match settled with
  | RejectedWith message => (w, error_result message)
  | Fulfilled _ =>
      match heap w !! tx with
      | None => (w, undefined_read "released")
      | Some t =>
          let w1 := set_released tx w in
          let w2 := safelyReleaseClient (client t) w1 in
          let w3 := removeTransaction transaction_id w2 in
          (w3, text_result ("Rolled back: " +:+ transaction_id +:+ ". No changes applied."))
      end
  end.

(** [execute_rollback] when nothing else runs while it awaits. *)
Definition execute_rollback (transaction_id : string) (settled : Awaited unit)
    (w : World) : World * ToolResult :=
  match rollback_begin transaction_id w with
  | (w1, Returned result) => (w1, result)
  | (w1, AwaitingRollback tx id) => rollback_resume tx id settled w1
  end.

(** ** Finalization as the specification describes it *)

Inductive Mode := Commit | Rollback.

Definition terminal_statement (mode : Mode) : string :=
  match mode with Commit => "COMMIT" | Rollback => "ROLLBACK" end.

(** Modelled from the spec: section 4.2 asks for a confirmation that names
    the mode and the id; rollback carries the wording of
    [execute_rollback]. *)
Definition confirmation (mode : Mode) (id : string) : string :=
  match mode with
  | Commit => "Committed: " +:+ id +:+ "."
  | Rollback => "Rolled back: " +:+ id +:+ ". No changes applied."
  end.

(** Modelled from the spec: [lib/tool-handlers.ts] and
    [lib/transaction-manager.ts] are missing; section 4.2 gives
    [finalize(id, mode)] in four steps: an absent id fails with NotFound; a
    released entry fails with AlreadyReleased and is removed; otherwise
    [released] is set in the same step as it is checked, the terminal
    statement is issued, the connection is released and the entry removed;
    a confirmation names the mode and the id.  The spec fixes no wording
    for the two failures: they carry the wording of [execute_rollback]. *)
Definition finalize (mode : Mode) (id : string) (w : World) : World * Awaited ToolResult :=
  match transactions w !! id with
  | None => (w, RejectedWith ("Transaction not found: " +:+ id))
  | Some tx =>
      match heap w !! tx with
      | None => (w, RejectedWith ("Transaction not found: " +:+ id))
      | Some t =>
          if released t then
            (removeTransaction id w, RejectedWith ("Already released: " +:+ id))
          else
            let w1 := set_released tx w in
            let w2 := client_query (client t) (terminal_statement mode) w1 in
            let w3 := safelyReleaseClient (client t) w2 in
            let w4 := removeTransaction id w3 in
            (w4, Fulfilled (text_result (confirmation mode id)))
      end
  end.

(** Modelled from the spec: [lib/tool-handlers.ts] is missing; commit is
    [finalize] with mode commit (section 4.2). *)
Definition handleExecuteCommit (transaction_id : string) (w : World)
    : World * Awaited ToolResult :=
  finalize Commit transaction_id w.

(** Modelled from the spec: [lib/transaction-manager.ts] is missing; section
    4.4 gives the age of an entry as [now - createdAt] and calls it expired
    when the age exceeds the configured timeout. *)
Definition is_expired (config : Config) (now : Z) (w : World) (id : string) : bool :=
  match transactions w !! id ≫= (heap w !!.) with
  | Some t => bool_decide (transactionTimeoutMs config < now - createdAt t)
  | None => false
  end.

(** Modelled from the spec: the entries of the registry that are expired
    at [now] (section 4.4, "enumerate all entries"). *)
Definition expired (config : Config) (now : Z) (w : World) : list string :=
  filter (fun id => is_expired config now w id = true) (map_to_list (transactions w)).*1.

(** Modelled from the spec: [lib/transaction-manager.ts] is missing; section
    4.4 gives one wake of the monitor: every entry whose age exceeds the
    timeout goes through [finalize] with mode rollback, and the caller of
    the sweep sees none of the results. *)
Definition monitor_sweep (config : Config) (now : Z) (w : World) : World :=
  if enableTransactionMonitor config then
    foldl (fun w' id => (finalize Rollback id w').1) w (expired config now w)
  else w.

(** ** Session multiplexer *)

(** A parsed request body.  Numbers only matter through their [typeof]. *)
#[local] Unset Elimination Schemes.
Inductive JSON :=
| JNull
| JBool (b : bool)
| JNumber (n : Z)
| JString (s : string)
| JArray (items : list JSON)
| JObject (members : list (string * JSON)).
#[local] Set Elimination Schemes.

(** The value stored under [name] in a list of members. *)
Fixpoint assoc {A : Type} (name : string) (members : list (string * A)) : option A :=
  match members with
  | [] => None
  | (k, v) :: rest => if decide (k = name) then Some v else assoc name rest
  end.

(** [v?.name], with [None] for [undefined]: only an object has the members
    asked for here ([method], [params], [protocolVersion]). *)
Definition member (v : option JSON) (name : string) : option JSON :=
  match v with
  | Some (JObject members) => assoc name members
  | _ => None
  end.

(** [typeof v] *)
Definition typeof (v : option JSON) : string :=
  match v with
  | None => "undefined"
  | Some JNull => "object"
  | Some (JBool _) => "boolean"
  | Some (JNumber _) => "number"
  | Some (JString _) => "string"
  | Some (JArray _) => "object"
  | Some (JObject _) => "object"
  end.

(** [req.body?.method === "initialize" && typeof req.body?.params ===
    "object" && typeof req.body?.params?.protocolVersion === "string"] *)
Definition isInitRequest (body : option JSON) : bool :=
  match member body "method" with
  | Some (JString method) => bool_decide (method = "initialize")
  | _ => false
  end
  && bool_decide (typeof (member body "params") = "object")
  && bool_decide (typeof (member (member body "params") "protocolVersion") = "string").

(** An inbound request: the [mcp-session-id] header and the parsed body. *)
Record Request := {
  mcp_session_id : option string;
  body : option JSON;
}.

(** A [StreamableHTTPServerTransport] created by the init branch. *)
Record Transport := {
  sessionIdGenerator : string;    (* () => newSessionId *)
  sessionId : option string;      (* transport.sessionId; undefined until initialised *)
  server_connected : bool;        (* createServer().connect(transport) ran *)
  closed : bool;                  (* the transport has signalled closure *)
}.

Abbreviation TransportRef := nat (only parsing).

(** [transports] is a plain object used as a map; the transports it points
    to are shared by reference with the closures of the init branch. *)
Record Mux := {
  transports : gmap string TransportRef;
  transport_heap : list Transport;
}.

(** The property names every plain object inherits from
    [Object.prototype]. *)
Definition object_prototype : list string :=
  [ "constructor"; "__proto__"; "hasOwnProperty"; "isPrototypeOf";
    "propertyIsEnumerable"; "toLocaleString"; "toString"; "valueOf";
    "__defineGetter__"; "__defineSetter__"; "__lookupGetter__";
    "__lookupSetter__" ].

(** What [transports[key]] evaluates to. *)
Inductive Property :=
| Undefined
| Own (t : TransportRef)        (* a registered transport *)
| Inherited (name : string).    (* a member of Object.prototype *)

(** [transports[key]]: own properties first, then the prototype. *)
Definition get_property (o : gmap string TransportRef) (key : string) : Property :=
  match o !! key with
  | Some t => Own t
  | None => if bool_decide (key ∈ object_prototype) then Inherited key else Undefined
  end.

(** Truthiness of a header value: [undefined] and the empty string are
    falsy. *)
Definition truthy_id (sessionId : option string) : bool :=
  match sessionId with
  | Some s => negb (bool_decide (s = ""))
  | None => false
  end.

(** Truthiness of [transports[key]]: transports and the inherited members
    are all objects or functions. *)
Definition truthy (p : Property) : bool :=
  match p with Undefined => false | _ => true end.

(** [transports[sessionId]] for the header value of a request. *)
Definition session_lookup (m : Mux) (sessionId : option string) : Property :=
  match sessionId with
  | Some s => get_property (transports m) s
  | None => Undefined
  end.

Inductive Body :=
| JsonBody (json : JSON)     (* res.json(...) *)
| TextBody (text : string).  (* res.send(...) *)

(** How a request leaves the multiplexer. *)
Inductive Outcome :=
| Handled (t : TransportRef) (headers : list (string * string))
    (* transport.handleRequest(req, res, ...) answered on transport t;
       headers are those set with res.setHeader before *)
| Rejected (status : Z) (payload : Body)
    (* res.status(status) with a body *)
| Thrown (message : string).
    (* the handler threw *)

(** Field updates on a transport object. *)
Definition set_sessionId (id : string) (tr : Transport) : Transport :=
  {| sessionIdGenerator := sessionIdGenerator tr; sessionId := Some id;
     server_connected := server_connected tr; closed := closed tr |}.

Definition set_connected (tr : Transport) : Transport :=
  {| sessionIdGenerator := sessionIdGenerator tr; sessionId := sessionId tr;
     server_connected := true; closed := closed tr |}.

Definition set_closed (tr : Transport) : Transport :=
  {| sessionIdGenerator := sessionIdGenerator tr; sessionId := sessionId tr;
     server_connected := server_connected tr; closed := true |}.

Definition update_transport (f : Transport -> Transport) (t : TransportRef) (m : Mux) : Mux :=
  {| transports := transports m; transport_heap := alter f t (transport_heap m) |}.

(** [onsessioninitialized]: [transports[id] = transport] *)
Definition onsessioninitialized (t : TransportRef) (id : string) (m : Mux) : Mux :=
  {| transports := <[id := t]> (transports m); transport_heap := transport_heap m |}.

(** [transport.onclose]: [if (transport.sessionId) delete
    transports[transport.sessionId]] *)
Definition onclose (t : TransportRef) (m : Mux) : Mux :=
  match transport_heap m !! t ≫= sessionId with
  | Some id =>
      if truthy_id (Some id) then
        {| transports := delete id (transports m); transport_heap := transport_heap m |}
      else m
  | None => m
  end.

(** The SDK transport signals closure: it is closed from then on and runs
    the [onclose] it was given. *)
Definition transport_close (t : TransportRef) (m : Mux) : Mux :=
  onclose t (update_transport set_closed t m).

(** [transport.handleRequest(req, res, body)], as far as it calls back into
    this program.  The SDK is not part of the repository; by its contract a
    transport that has no session id yet and accepts the request as an
    initialization ([sdk_initializes]) takes its id from
    [sessionIdGenerator] and calls [onsessioninitialized] with it.  Any
    other request leaves the session map alone; when a request makes the
    SDK close the transport (a DELETE), that closure is the separate step
    [transport_close]. *)
Definition transport_handleRequest (sdk_initializes : Request -> bool)
    (t : TransportRef) (req : Request) (m : Mux) : Mux :=
  match transport_heap m !! t with
  | Some tr =>
      match sessionId tr with
      | None =>
          if sdk_initializes req then
            let id := sessionIdGenerator tr in
            onsessioninitialized t id (update_transport (set_sessionId id) t m)
          else m
      | Some _ => m
      end
  | None => m
  end.

(** [new StreamableHTTPServerTransport({ sessionIdGenerator: () =>
    newSessionId, onsessioninitialized })] followed by [transport.onclose =
    ...]: a new object, not yet initialised. *)
Definition new_transport (newSessionId : string) (m : Mux) : TransportRef * Mux :=
  (length (transport_heap m),
   {| transports := transports m;
      transport_heap := transport_heap m ++
        [ {| sessionIdGenerator := newSessionId; sessionId := None;
             server_connected := false; closed := false |} ] |}).

(** [const server = createServer(); await server.connect(transport)] *)
Definition connect_server (t : TransportRef) (m : Mux) : Mux :=
  update_transport set_connected t m.

(** The JSON-RPC error of the rejection branch. *)
Definition bad_request : Body :=
  JsonBody (JObject
    [ ("jsonrpc", JString "2.0");
      ("error", JObject [ ("code", JNumber (-32000));
                          ("message", JString "Bad Request: No valid session ID provided") ]);
      ("id", JNull) ]).

(** [transport.handleRequest(...)] on whatever [transports[sessionId]]
    evaluated to: an inherited member has no [handleRequest]. *)
Definition dispatch (sdk_initializes : Request -> bool) (p : Property)
    (headers : list (string * string)) (req : Request) (m : Mux) : Mux * Outcome :=
  match p with
  | Own t => (transport_handleRequest sdk_initializes t req m, Handled t headers)
  | Inherited _ => (m, Thrown "transport.handleRequest is not a function")
  | Undefined => (m, Thrown "Cannot read properties of undefined (reading 'handleRequest')")
  end.

(** [app.post("/mcp", ...)]; [uuid] is what [randomUUID()] returns if it is
    called.  The two awaits of this handler ([server.connect] and
    [transport.handleRequest]) work on the transport at hand only, so the
    handler is embedded in one piece. *)
Definition post_mcp (sdk_initializes : Request -> bool) (uuid : string)
    (req : Request) (m : Mux) : Mux * Outcome :=
  let sessionId := mcp_session_id req in
  let isInit := isInitRequest (body req) in
  if truthy_id sessionId && truthy (session_lookup m sessionId) then
    dispatch sdk_initializes (session_lookup m sessionId) [] req m
  else if negb (truthy_id sessionId) && isInit then
    let newSessionId := uuid in
    let headers := [("mcp-session-id", newSessionId)] in
    let '(transport, m1) := new_transport newSessionId m in
    let m2 := connect_server transport m1 in
    dispatch sdk_initializes (Own transport) headers req m2
  else
    (m, Rejected 400 bad_request).

(** [handleSessionRequest], serving GET and DELETE on [/mcp]. *)
Definition handleSessionRequest (sdk_initializes : Request -> bool)
    (req : Request) (m : Mux) : Mux * Outcome :=
  let sessionId := mcp_session_id req in
  if negb (truthy_id sessionId) || negb (truthy (session_lookup m sessionId)) then
    (m, Rejected 400 (TextBody "Invalid or missing session ID"))
  else
    dispatch sdk_initializes (session_lookup m sessionId) [] req m.

(** ** Vocabulary of the statements *)

(** The error taxonomy, as the handlers word it. *)
Definition NotFound (id : string) : ToolResult :=
  error_result ("Transaction not found: " +:+ id).

Definition AlreadyReleased (id : string) : ToolResult :=
  error_result ("Already released: " +:+ id).

Definition CapacityExceeded (config : Config) : ToolResult :=
  error_result ("Limit reached (" +:+ pretty (maxConcurrentTransactions config) +:+ "). Try later.").

(** The confirmation of [execute_rollback]. *)
Definition RolledBack (id : string) : ToolResult :=
  text_result ("Rolled back: " +:+ id +:+ ". No changes applied.").

(** A suspended or finished call picks up again. *)
Definition resume (s : RollbackState) (settled : Awaited unit) (w : World) : World * ToolResult :=
  match s with
  | Returned result => (w, result)
  | AwaitingRollback tx id => rollback_resume tx id settled w
  end.

(** Two calls of [execute_rollback] that overlap: the second arrives while
    the first awaits its [ROLLBACK]; then the first resumes, then the
    second. *)
Definition overlapping_rollbacks (id1 id2 : string) (settled1 settled2 : Awaited unit)
    (w : World) : World * ToolResult * ToolResult :=
  let '(w1, s1) := rollback_begin id1 w in
  let '(w2, s2) := rollback_begin id2 w1 in
  let '(w3, r1) := resume s1 settled1 w2 in
  let '(w4, r2) := resume s2 settled2 w3 in
  (w4, r1, r2).

(** A call of [execute_rollback] during whose [await] the monitor wakes. *)
Definition rollback_during_sweep (config : Config) (now : Z) (id : string)
    (settled : Awaited unit) (w : World) : World * ToolResult :=
  let '(w1, s) := rollback_begin id w in
  let w2 := monitor_sweep config now w1 in
  resume s settled w2.

(** One open transaction ["tx-1"] on connection 7, begun at time 1000. *)
Definition one_open : World :=
  {| transactions := {[ "tx-1" := 0%nat ]};
     heap := [ {| client := 7%nat; createdAt := 1000; released := false |} ];
     pool_log := [ Acquire 7%nat; Query 7%nat "BEGIN" ] |}.

(** Two open transactions, with a ceiling of two. *)
Definition two_open : World :=
  {| transactions := {[ "tx-1" := 0%nat; "tx-2" := 1%nat ]};
     heap := [ {| client := 7%nat; createdAt := 1000; released := false |};
               {| client := 8%nat; createdAt := 1200; released := false |} ];
     pool_log := [ Acquire 7%nat; Query 7%nat "BEGIN"; Acquire 8%nat; Query 8%nat "BEGIN" ] |}.

Definition ceiling_two : Config :=
  {| maxConcurrentTransactions := 2; transactionTimeoutMs := 100;
     monitorIntervalMs := 50; enableTransactionMonitor := true |}.

(** A [handleExecuteDML] that takes connection 9 from the pool before
    anything else. *)
Definition acquiring_dml (timeout : Z) (sql : string) (w : World) : World * Awaited ToolResult :=
  ({| transactions := transactions w; heap := heap w;
      pool_log := pool_log w ++ [ Acquire 9%nat; Query 9%nat "BEGIN"; Query 9%nat sql ] |},
   Fulfilled (text_result "ok")).

(** ["tx-1"] is still registered although its flag is already set. *)
Definition one_released : World :=
  {| transactions := {[ "tx-1" := 0%nat ]};
     heap := [ {| client := 7%nat; createdAt := 1000; released := true |} ];
     pool_log := [ Acquire 7%nat; Query 7%nat "BEGIN"; Query 7%nat "ROLLBACK"; Release 7%nat ] |}.

(** No session yet. *)
Definition no_sessions : Mux := {| transports := ∅; transport_heap := [] |}.

(** What [randomUUID()] promises: a string of 36 characters that no
    transport carries as its session id. *)
Definition fresh_uuid (uuid : string) (m : Mux) : Prop :=
  String.length uuid = 36%nat
  /\ forall t tr, transport_heap m !! t = Some tr -> sessionId tr <> Some uuid.

(** A live pairing for [id]: a transport that carries [id] as its session
    id, has a server connected to it and has not signalled closure. *)
Definition live_pairing (m : Mux) (id : string) (t : TransportRef) : Prop :=
  exists tr, transport_heap m !! t = Some tr
    /\ sessionId tr = Some id /\ server_connected tr = true /\ closed tr = false.

(** The states of the multiplexer: it starts without sessions and moves by
    POST requests (each with the value [randomUUID()] would draw), by GET
    and DELETE requests, and by transports signalling closure. *)
Inductive reachable (sdk_initializes : Request -> bool) : Mux -> Prop :=
| reach_start : reachable sdk_initializes no_sessions
| reach_post uuid req m :
    reachable sdk_initializes m -> fresh_uuid uuid m ->
    reachable sdk_initializes (post_mcp sdk_initializes uuid req m).1
| reach_session req m :
    reachable sdk_initializes m ->
    reachable sdk_initializes (handleSessionRequest sdk_initializes req m).1
| reach_close t m :
    reachable sdk_initializes m ->
    reachable sdk_initializes (transport_close t m).

(** What holds of every reachable state. *)
Record mux_inv (m : Mux) : Prop := {
  inv_registered : forall id t, transports m !! id = Some t -> live_pairing m id t;
  inv_live : forall id t, live_pairing m id t -> transports m !! id = Some t;
  inv_unique : forall t1 t2 tr1 tr2 id,
    transport_heap m !! t1 = Some tr1 -> transport_heap m !! t2 = Some tr2 ->
    sessionId tr1 = Some id -> sessionId tr2 = Some id -> t1 = t2;
  inv_uuid : forall t tr id,
    transport_heap m !! t = Some tr -> sessionId tr = Some id -> String.length id = 36%nat;
}.

(** The transport of the init branch once a server is connected to it,
    before and after the SDK has initialised it. *)
Definition connected_transport (uuid : string) : Transport :=
  {| sessionIdGenerator := uuid; sessionId := None; server_connected := true; closed := false |}.

Definition initialised_transport (uuid : string) : Transport :=
  {| sessionIdGenerator := uuid; sessionId := Some uuid; server_connected := true; closed := false |}.

(** An initialization request as a client sends it. *)
Definition initialize_request : Request :=
  {| mcp_session_id := None;
     body := Some (JObject
       [ ("jsonrpc", JString "2.0"); ("id", JNumber 1); ("method", JString "initialize");
         ("params", JObject [ ("protocolVersion", JString "2025-03-26");
                              ("capabilities", JObject []);
                              ("clientInfo", JObject [ ("name", JString "client") ]) ]) ]) |}.

(** A tool call sent under the session id [id]. *)
Definition tools_call (id : option string) : Request :=
  {| mcp_session_id := id;
     body := Some (JObject
       [ ("jsonrpc", JString "2.0"); ("id", JNumber 2); ("method", JString "tools/call");
         ("params", JObject [ ("name", JString "execute_query") ]) ]) |}.

(** An SDK transport that takes for an initialization what [isInitRequest]
    takes for one. *)
Definition accepting_sdk (req : Request) : bool := isInitRequest (body req).

Definition uuid1 : string := "36b8f84d-df4e-4d49-b662-bcde71a8764f".

(** The state after one initialization from scratch. *)
Definition one_session : Mux := (post_mcp accepting_sdk uuid1 initialize_request no_sessions).1.

Definition uuid2 : string := "9f1c2d3e-4b5a-4c6d-8e7f-0a1b2c3d4e5f".

(** The state after a second initialization. *)
Definition two_sessions : Mux := (post_mcp accepting_sdk uuid2 initialize_request one_session).1.

(** A POST without session id whose body passes the handler's check and is
    no JSON-RPC message: it has neither [jsonrpc] nor [id]. *)
Definition bare_init : Request :=
  {| mcp_session_id := None;
     body := Some (JObject
       [ ("method", JString "initialize");
         ("params", JObject [ ("protocolVersion", JString "2025-03-26") ]) ]) |}.

(** An SDK transport that takes nothing for an initialization. *)
Definition declining_sdk (req : Request) : bool := false.

(** ** Registries in sequential use *)

(** [id] is registered, and [t] is the transaction object behind it. *)
Definition registered (w : World) (id : string) (tx : TxRef) (t : Transaction) : Prop :=
  transactions w !! id = Some tx /\ heap w !! tx = Some t.

(** Every reference of the registry leads to a transaction object. *)
Definition well_formed (w : World) : Prop :=
  forall id tx, transactions w !! id = Some tx -> is_Some (heap w !! tx).

(** How often connection [c] was taken from the pool. *)
Definition acquire_count (c : Client) (w : World) : nat :=
  length (filter (fun e => e = Acquire c) (pool_log w)).

(** The open transactions hold their connections: no two of them share a
    connection, and each one's connection has been taken from the pool once
    more than it has been handed back. *)
Definition holds_connections (w : World) : Prop :=
  well_formed w
  /\ (forall id1 id2 tx1 tx2 t1 t2,
        registered w id1 tx1 t1 -> registered w id2 tx2 t2 ->
        released t1 = false -> released t2 = false ->
        client t1 = client t2 -> id1 = id2)
  /\ (forall id tx t,
        registered w id tx t -> released t = false ->
        acquire_count (client t) w = S (release_count (client t) w)).

(** What a tool handler makes of the awaited result of its helper: the
    [try] branch and the [catch] branch. *)
Definition settle (r : World * Awaited ToolResult) : World * ToolResult :=
  match r with
  | (w, Fulfilled result) => (w, transformHandlerResponse result)
  | (w, RejectedWith message) => (w, error_result message)
  end.

(** A [handleExecuteDML] that takes connection 9 from the pool and registers
    the transaction ["tx-3"] on it. *)
Definition registering_dml (timeout : Z) (sql : string) (w : World) : World * Awaited ToolResult :=
  ({| transactions := <[ "tx-3" := length (heap w) ]> (transactions w);
      heap := heap w ++ [ {| client := 9%nat; createdAt := 3000; released := false |} ];
      pool_log := pool_log w ++ [ Acquire 9%nat; Query 9%nat "BEGIN"; Query 9%nat sql ] |},
   Fulfilled (text_result "tx-3")).

(** ** Handler results as JavaScript objects *)

Module Wire.

(** [transformHandlerResponse] on results as the helpers build them: nothing
    ([undefined] or [null]) or an object, given by its members in order.  A
    member that holds [undefined] is written as an absent member. *)
Abbreviation Members := (list (string * JSON)) (only parsing).

(** Truthiness of a member's value. *)
Definition truthy (v : JSON) : bool :=
  match v with
  | JNull => false
  | JBool b => b
  | JNumber n => negb (bool_decide (n = 0))
  | JString s => negb (bool_decide (s = ""))
  | JArray _ => true
  | JObject _ => true
  end.

(** [object.name = v]: an own member keeps its place, a new one goes last. *)
Fixpoint set_member (name : string) (v : JSON) (members : Members) : Members :=
  match members with
  | [] => [(name, v)]
  | (k, old) :: rest =>
      if decide (k = name) then (k, v) :: rest else (k, old) :: set_member name v rest
  end.

(** The callback of [result.content.map]: an item whose [type] is ["text"]
    becomes [{ type: "text", text: item.text }]; any other item is returned
    as it is; reading [type] of [null] throws. *)
Definition transform_item (item : JSON) : Awaited JSON :=
  match item with
  | JNull => RejectedWith "Cannot read properties of null (reading 'type')"
  | JObject members =>
      match assoc "type" members with
      | Some (JString type) =>
          if bool_decide (type = "text") then
            Fulfilled (JObject (("type", JString "text") ::
                                match assoc "text" members with
                                | Some text => [("text", text)]
                                | None => []
                                end))
          else Fulfilled item
      | _ => Fulfilled item
      end
  | _ => Fulfilled item
  end.

(** [items.map(callback)]: the items in order, up to the first throw. *)
Fixpoint transform_items (items : list JSON) : Awaited (list JSON) :=
  match items with
  | [] => Fulfilled []
  | item :: rest =>
      match transform_item item with
      | RejectedWith message => RejectedWith message
      | Fulfilled item' =>
          match transform_items rest with
          | RejectedWith message => RejectedWith message
          | Fulfilled rest' => Fulfilled (item' :: rest')
          end
      end
  end.

(** [transformHandlerResponse(result)] *)
Definition transformHandlerResponse (result : option Members) : Awaited (option Members) :=
  match result with
  | None => Fulfilled None
  | Some members =>
      match assoc "content" members with
      | None => Fulfilled (Some members)
      | Some (JArray items) =>
          match transform_items items with
          | RejectedWith message => RejectedWith message
          | Fulfilled items' => Fulfilled (Some (set_member "content" (JArray items') members))
          end
      | Some content =>
          if truthy content then RejectedWith "result.content.map is not a function"
          else Fulfilled (Some members)
      end
  end.

(** A text item and a tool result as objects. *)
Definition of_content (item : Content) : JSON :=
  match item with Text text => JObject [("type", JString "text"); ("text", JString text)] end.

Definition of_result (r : ToolResult) : option Members :=
  Some ((if isError r then [("isError", JBool true)] else [])
        ++ [("content", JArray (map of_content (content r)))]).

End Wire.

(** * Properties of the transaction handlers *)

Section Rollback.
Implicit Types (w : World) (id : string) (tx : TxRef) (t : Transaction).

Lemma hasTransaction_Some w id tx :
  transactions w !! id = Some tx -> hasTransaction w id = true.
Proof.
  intros H. unfold hasTransaction. apply bool_decide_eq_true. by eexists.
Qed.

Lemma hasTransaction_None w id :
  transactions w !! id = None -> hasTransaction w id = false.
Proof.
  intros H. unfold hasTransaction. apply bool_decide_eq_false.
  rewrite H. by intros [? ?].
Qed.

(** First segment, absent id: the call returns at once. *)
Lemma rollback_begin_absent w id :
  transactions w !! id = None ->
  rollback_begin id w = (w, Returned (NotFound id)).
Proof.
  intros H. unfold rollback_begin. by rewrite (hasTransaction_None _ _ H).
Qed.

(** First segment, entry already released: cleanup and return. *)
Lemma rollback_begin_released w id tx t :
  transactions w !! id = Some tx -> heap w !! tx = Some t -> released t = true ->
  rollback_begin id w = (removeTransaction id w, Returned (AlreadyReleased id)).
Proof.
  intros Hid Htx Hrel. unfold rollback_begin, getTransaction.
  by rewrite (hasTransaction_Some _ _ _ Hid), Hid, Htx, Hrel.
Qed.

(** First segment, open entry: the statement is sent and the call is
    suspended, with the flag untouched. *)
Lemma rollback_begin_open w id tx t :
  transactions w !! id = Some tx -> heap w !! tx = Some t -> released t = false ->
  rollback_begin id w = (client_query (client t) "ROLLBACK" w, AwaitingRollback tx id).
Proof.
  intros Hid Htx Hrel. unfold rollback_begin, getTransaction.
  by rewrite (hasTransaction_Some _ _ _ Hid), Hid, Htx, Hrel.
Qed.

(** Second segment after a successful statement: whatever state is found
    on resumption, the flag is written, the connection released and the
    entry removed; nothing is checked again. *)
Lemma rollback_resume_fulfilled w id tx t u :
  heap w !! tx = Some t ->
  rollback_resume tx id (Fulfilled u) w =
    (removeTransaction id (safelyReleaseClient (client t) (set_released tx w)), RolledBack id).
Proof. intros Htx. unfold rollback_resume. by rewrite Htx. Qed.

(** Second segment after a failed statement: the state found on
    resumption is handed on as it is. *)
Lemma rollback_resume_rejected w id tx message :
  rollback_resume tx id (RejectedWith message) w = (w, error_result message).
Proof. reflexivity. Qed.

Lemma set_released_lookup w tx t :
  heap w !! tx = Some t -> heap (set_released tx w) !! tx = Some (mark_released t).
Proof.
  intros Htx. unfold set_released; simpl.
  rewrite list_lookup_alter_eq. by rewrite Htx.
Qed.

(** A call that comes back with the confirmation has removed the entry. *)
Lemma rollback_confirmed_removes w w' id settled :
  execute_rollback id settled w = (w', RolledBack id) ->
  transactions w' !! id = None.
Proof.
  unfold execute_rollback, rollback_begin, getTransaction.
  destruct (hasTransaction w id); simpl; [| intros [= _ ?]; done].
  destruct (transactions w !! id) as [tx|]; [| intros [= _ ?]; done].
  destruct (heap w !! tx) as [t|] eqn:Htx; [| intros [= _ ?]; done].
  destruct (released t); [intros [= _ ?]; done |].
  unfold rollback_resume. destruct settled as [u | message]; [| intros [= _ ?]; done].
  cbn [heap client_query]. rewrite Htx. intros [= <- ]. simpl. apply lookup_delete_eq.
Qed.

(** The commit of the specification that comes back with a confirmation
    has removed the entry. *)
Lemma commit_confirmed_removes w w' id r :
  execute_commit handleExecuteCommit id w = (w', r) -> isError r = false ->
  transactions w' !! id = None.
Proof.
  unfold execute_commit, handleExecuteCommit, finalize.
  destruct (transactions w !! id) as [tx|] eqn:Hid; [| by intros [= <- <-]].
  destruct (heap w !! tx) as [t|]; [| by intros [= <- <-]].
  destruct (released t); [by intros [= <- <-] |].
  intros [= <- <-] _. simpl. apply lookup_delete_eq.
Qed.

Lemma commit_absent w id :
  transactions w !! id = None ->
  execute_commit handleExecuteCommit id w = (w, NotFound id).
Proof.
  intros H. unfold execute_commit, handleExecuteCommit, finalize. by rewrite H.
Qed.
End Rollback.

(** C1. Admission gate: when the number of tracked transactions is at or
    above [maxConcurrentTransactions], [execute_dml_ddl_dcl_tcl] answers
    with the CapacityExceeded error and hands the state back as it found
    it, whatever [handleExecuteDML] would have done: the log of pool calls
    gains nothing (no acquire) and the transaction count is the same. *)
Theorem admission_rejects_before_acquire
    (config : Config) (handleExecuteDML : Z -> string -> World -> World * Awaited ToolResult)
    (sql : string) (w : World) :
  maxConcurrentTransactions config <= transactionCount w ->
  execute_dml_ddl_dcl_tcl config handleExecuteDML sql w = (w, CapacityExceeded config)
  /\ pool_log (execute_dml_ddl_dcl_tcl config handleExecuteDML sql w).1 = pool_log w
  /\ transactionCount (execute_dml_ddl_dcl_tcl config handleExecuteDML sql w).1
       = transactionCount w.
Proof.
  intros Hfull.
  assert (execute_dml_ddl_dcl_tcl config handleExecuteDML sql w = (w, CapacityExceeded config)) as ->.
  { unfold execute_dml_ddl_dcl_tcl. by rewrite bool_decide_eq_true_2. }
  done.
Qed.

Lemma admission_rejects_before_acquire_witness :
  maxConcurrentTransactions ceiling_two <= transactionCount two_open
  /\ execute_dml_ddl_dcl_tcl ceiling_two acquiring_dml "UPDATE t SET x = 1" two_open
       = (two_open, CapacityExceeded ceiling_two).
Proof.
  assert (maxConcurrentTransactions ceiling_two <= transactionCount two_open) as H
    by (vm_compute; discriminate).
  split; [exact H |].
  exact (proj1 (admission_rejects_before_acquire ceiling_two acquiring_dml
                  "UPDATE t SET x = 1" two_open H)).
Defined.

(** C2, as the handler has it. For every [execute_rollback(id)] whose id is
    registered with [released] false and whose [ROLLBACK] statement
    succeeds: [ROLLBACK] is issued on the bound connection, that connection
    is then released to the pool, the transaction object ends with
    [released] true, the entry is gone from the registry, and the call
    returns the confirmation naming the id. *)
Theorem rollback_success_sequence (w : World) (id : string) (tx : TxRef) (t : Transaction) :
  transactions w !! id = Some tx -> heap w !! tx = Some t -> released t = false ->
  let w' := (execute_rollback id (Fulfilled ()) w).1 in
  (execute_rollback id (Fulfilled ()) w).2 = RolledBack id
  /\ pool_log w' = pool_log w ++ [Query (client t) "ROLLBACK"; Release (client t)]
  /\ heap w' !! tx = Some (mark_released t)
  /\ transactions w' = delete id (transactions w).
Proof.
  intros Hid Htx Hrel. unfold execute_rollback.
  rewrite (rollback_begin_open _ _ _ _ Hid Htx Hrel).
  rewrite (rollback_resume_fulfilled _ _ _ t) by done.
  simpl. repeat split.
  - by rewrite <- app_assoc.
  - rewrite list_lookup_alter_eq. by rewrite Htx.
Qed.

Lemma rollback_success_sequence_witness :
  (execute_rollback "tx-1" (Fulfilled ()) one_open).2 = RolledBack "tx-1"
  /\ pool_log (execute_rollback "tx-1" (Fulfilled ()) one_open).1
       = pool_log one_open ++ [Query 7%nat "ROLLBACK"; Release 7%nat].
Proof.
  pose proof (rollback_success_sequence one_open "tx-1" 0%nat
                {| client := 7%nat; createdAt := 1000; released := false |}
                eq_refl eq_refl eq_refl) as H.
  split; [exact (proj1 H) | exact (proj1 (proj2 H))].
Defined.

(** C2 as stated fails on [one_open] with a [ROLLBACK] that the database
    rejects: when the statement has been issued and the call awaits it, the
    flag has not been set; and the call ends in an error, not in the
    confirmation, with the entry still registered. *)
Lemma rollback_flag_not_set_first :
  rollback_begin "tx-1" one_open
    = (client_query 7%nat "ROLLBACK" one_open, AwaitingRollback 0%nat "tx-1")
  /\ released <$> heap (client_query 7%nat "ROLLBACK" one_open) !! 0%nat = Some false
  /\ ~ ((execute_rollback "tx-1" (RejectedWith "connection terminated") one_open).2
          = RolledBack "tx-1")
  /\ transactions (execute_rollback "tx-1" (RejectedWith "connection terminated") one_open).1
       !! "tx-1" = Some 0%nat.
Proof. repeat split; try reflexivity. vm_compute. discriminate. Qed.

(** C3. A finalize call on an id that is absent from the registry fails
    with NotFound and hands the state back unchanged: [execute_rollback]
    whatever its statement would have returned, and [execute_commit] over
    the commit of the specification.  The id is absent in particular in the
    state [w] left by a rollback or a commit of that id that returned its
    confirmation from some state [w0]. *)
Theorem finalize_absent_not_found (w0 w : World) (id : string) :
  transactions w !! id = None
  \/ execute_rollback id (Fulfilled ()) w0 = (w, RolledBack id)
  \/ execute_commit handleExecuteCommit id w0 = (w, text_result (confirmation Commit id)) ->
  (forall settled, execute_rollback id settled w = (w, NotFound id))
  /\ execute_commit handleExecuteCommit id w = (w, NotFound id).
Proof.
  intros H.
  assert (transactions w !! id = None) as Habsent.
  { destruct H as [H | [H | H]]; [done | |].
    - by eapply rollback_confirmed_removes.
    - by eapply commit_confirmed_removes. }
  split.
  - intros settled. unfold execute_rollback. by rewrite rollback_begin_absent.
  - by apply commit_absent.
Qed.

Lemma finalize_absent_not_found_witness :
  let w := (execute_rollback "tx-1" (Fulfilled ()) one_open).1 in
  execute_rollback "tx-1" (Fulfilled ()) w = (w, NotFound "tx-1")
  /\ execute_commit handleExecuteCommit "tx-1" w = (w, NotFound "tx-1").
Proof.
  intros w.
  assert (execute_rollback "tx-1" (Fulfilled ()) one_open = (w, RolledBack "tx-1")) as H
    by reflexivity.
  destruct (finalize_absent_not_found one_open w "tx-1" (or_intror (or_introl H)))
    as [Hrollback Hcommit].
  split; [exact (Hrollback (Fulfilled ())) | exact Hcommit].
Defined.

(** C4. [execute_rollback(id)] on an entry that is registered with
    [released] already true returns in its first synchronous segment with
    AlreadyReleased; the entry is removed from the registry; no statement
    is issued and no connection released (the log of pool calls is the
    same), and the transaction objects are untouched. *)
Theorem rollback_already_released
    (w : World) (id : string) (tx : TxRef) (t : Transaction) (settled : Awaited unit) :
  transactions w !! id = Some tx -> heap w !! tx = Some t -> released t = true ->
  rollback_begin id w = (removeTransaction id w, Returned (AlreadyReleased id))
  /\ execute_rollback id settled w = (removeTransaction id w, AlreadyReleased id)
  /\ transactions (removeTransaction id w) !! id = None
  /\ pool_log (removeTransaction id w) = pool_log w
  /\ heap (removeTransaction id w) = heap w.
Proof.
  intros Hid Htx Hrel.
  pose proof (rollback_begin_released _ _ _ _ Hid Htx Hrel) as Hbegin.
  repeat split; [done | | apply lookup_delete_eq].
  unfold execute_rollback. by rewrite Hbegin.
Qed.

Lemma rollback_already_released_witness :
  execute_rollback "tx-1" (Fulfilled ()) one_released
    = (removeTransaction "tx-1" one_released, AlreadyReleased "tx-1")
  /\ pool_log (removeTransaction "tx-1" one_released) = pool_log one_released.
Proof.
  pose proof (rollback_already_released one_released "tx-1" 0%nat
                {| client := 7%nat; createdAt := 1000; released := true |}
                (Fulfilled ()) eq_refl eq_refl eq_refl) as H.
  split; [exact (proj1 (proj2 H)) | exact (proj1 (proj2 (proj2 (proj2 H))))].
Defined.

(** C5, at the failing input. Two [execute_rollback("tx-1")] calls overlap
    on [one_open]: the second arrives while the first awaits its
    [ROLLBACK].  Both find [released] false, both return the confirmation,
    and connection 7 is handed back to the pool twice. *)
Theorem overlapping_rollbacks_release_twice :
  let '(w, r1, r2) :=
    overlapping_rollbacks "tx-1" "tx-1" (Fulfilled ()) (Fulfilled ()) one_open in
  release_count 7%nat one_open = 0%nat
  /\ r1 = RolledBack "tx-1"
  /\ r2 = RolledBack "tx-1"
  /\ release_count 7%nat w = 2%nat
  /\ pool_log w = pool_log one_open ++
       [ Query 7%nat "ROLLBACK"; Query 7%nat "ROLLBACK"; Release 7%nat; Release 7%nat ].
Proof. vm_compute. repeat split. Qed.

(** The second segment of [execute_rollback] releases the connection on
    every state it can resume in, also one where another finalizer has set
    [released] and released the connection in the meantime. *)
Lemma rollback_resume_releases_again (w : World) (id : string) (tx : TxRef) (t : Transaction) :
  heap w !! tx = Some t ->
  let '(w', r) := rollback_resume tx id (Fulfilled ()) w in
  r = RolledBack id
  /\ release_count (client t) w' = S (release_count (client t) w).
Proof.
  intros Htx. rewrite (rollback_resume_fulfilled _ _ _ t) by done.
  split; [done |]. unfold release_count; simpl.
  rewrite filter_app, length_app. simpl.
  rewrite filter_cons_True by done. simpl. lia.
Qed.

(** Overlapping calls on any open transaction: both return the
    confirmation and the connection is released two times more. *)
Lemma overlapping_rollbacks_open (w : World) (id : string) (tx : TxRef) (t : Transaction) :
  transactions w !! id = Some tx -> heap w !! tx = Some t -> released t = false ->
  exists w', overlapping_rollbacks id id (Fulfilled ()) (Fulfilled ()) w
               = (w', RolledBack id, RolledBack id)
    /\ release_count (client t) w' = S (S (release_count (client t) w)).
Proof.
  intros Hid Htx Hrel. unfold overlapping_rollbacks.
  rewrite (rollback_begin_open _ _ _ _ Hid Htx Hrel).
  rewrite (rollback_begin_open (client_query (client t) "ROLLBACK" w) id tx t) by done.
  unfold resume.
  rewrite (rollback_resume_fulfilled _ _ _ t) by done.
  rewrite (rollback_resume_fulfilled _ _ _ (mark_released t)).
  - eexists. split; [reflexivity |].
    unfold release_count; simpl.
    rewrite !filter_app, !length_app. simpl.
    rewrite !filter_cons_True by done. simpl. lia.
  - simpl. rewrite list_lookup_alter_eq. by rewrite Htx.
Qed.

(** The same against the finalize of the specification, run on any open
    transaction while [execute_rollback] awaits: the finalize succeeds, and
    so does the call when it resumes. *)
Lemma rollback_during_finalize_open (w : World) (id : string) (tx : TxRef) (t : Transaction) :
  transactions w !! id = Some tx -> heap w !! tx = Some t -> released t = false ->
  exists w2 w3,
    rollback_begin id w = (client_query (client t) "ROLLBACK" w, AwaitingRollback tx id)
    /\ finalize Rollback id (client_query (client t) "ROLLBACK" w)
         = (w2, Fulfilled (text_result (confirmation Rollback id)))
    /\ rollback_resume tx id (Fulfilled ()) w2 = (w3, RolledBack id)
    /\ release_count (client t) w3 = S (S (release_count (client t) w)).
Proof.
  intros Hid Htx Hrel. do 2 eexists.
  split; [by apply rollback_begin_open |].
  split; [unfold finalize; simpl; by rewrite Hid, Htx, Hrel |].
  split.
  - apply (rollback_resume_fulfilled _ _ _ (mark_released t)).
    simpl. rewrite list_lookup_alter_eq. by rewrite Htx.
  - unfold release_count; simpl.
    rewrite !filter_app, !length_app. simpl.
    rewrite !filter_cons_True by done. simpl. lia.
Qed.

(** C9, at the failing input. [execute_rollback("tx-1")] is suspended at
    its [await] on [one_open] when the monitor wakes at time 2000 with a
    timeout of 100.  The monitor's finalize finds [released] false, sets
    it, rolls back, releases connection 7 and removes the entry.  The
    request path then resumes, does not look at the flag again, writes it a
    second time, releases connection 7 a second time and returns the
    confirmation: both finalizers succeed. *)
Theorem rollback_and_monitor_both_succeed :
  let '(w1, s) := rollback_begin "tx-1" one_open in
  let w2 := monitor_sweep ceiling_two 2000 w1 in
  let '(w3, r) := resume s (Fulfilled ()) w2 in
  s = AwaitingRollback 0%nat "tx-1"
  /\ released <$> heap w1 !! 0%nat = Some false
  /\ finalize Rollback "tx-1" w1 = (w2, Fulfilled (text_result (confirmation Rollback "tx-1")))
  /\ released <$> heap w2 !! 0%nat = Some true
  /\ release_count 7%nat w2 = 1%nat
  /\ r = RolledBack "tx-1"
  /\ release_count 7%nat w3 = 2%nat
  /\ rollback_during_sweep ceiling_two 2000 "tx-1" (Fulfilled ()) one_open = (w3, r).
Proof. vm_compute. repeat split. Qed.

(** C10. When the [ROLLBACK] statement of [execute_rollback] is rejected,
    the call returns the error result carrying the message, and nothing but
    the statement itself has happened: the registry and the transaction
    objects are as before (the entry is registered, [released] is false)
    and the log of pool calls has gained the [ROLLBACK] query and no
    release.  The second segment hands on whatever state it resumes in. *)
Theorem rollback_statement_failure
    (w : World) (id : string) (tx : TxRef) (t : Transaction) (message : string) :
  transactions w !! id = Some tx -> heap w !! tx = Some t -> released t = false ->
  let w' := (execute_rollback id (RejectedWith message) w).1 in
  (execute_rollback id (RejectedWith message) w).2 = error_result message
  /\ transactions w' = transactions w
  /\ heap w' = heap w
  /\ pool_log w' = pool_log w ++ [Query (client t) "ROLLBACK"]
  /\ release_count (client t) w' = release_count (client t) w
  /\ (forall w2, rollback_resume tx id (RejectedWith message) w2 = (w2, error_result message)).
Proof.
  intros Hid Htx Hrel. unfold execute_rollback.
  rewrite (rollback_begin_open _ _ _ _ Hid Htx Hrel).
  rewrite rollback_resume_rejected. simpl. repeat split.
  unfold release_count; simpl.
  rewrite filter_app, length_app. simpl. lia.
Qed.

Lemma rollback_statement_failure_witness :
  execute_rollback "tx-1" (RejectedWith "connection terminated") one_open
    = (client_query 7%nat "ROLLBACK" one_open, error_result "connection terminated")
  /\ transactions (execute_rollback "tx-1" (RejectedWith "connection terminated") one_open).1
       = transactions one_open
  /\ heap (execute_rollback "tx-1" (RejectedWith "connection terminated") one_open).1
       = heap one_open.
Proof.
  pose proof (rollback_statement_failure one_open "tx-1" 0%nat
                {| client := 7%nat; createdAt := 1000; released := false |}
                "connection terminated" eq_refl eq_refl eq_refl) as H.
  split; [reflexivity |].
  split; [exact (proj1 (proj2 H)) | exact (proj1 (proj2 (proj2 H)))].
Defined.

(** * Properties of the session multiplexer *)

Section Multiplexer.
Variable sdk_initializes : Request -> bool.
Implicit Types (m : Mux) (req : Request) (t : TransportRef) (tr : Transport).

Lemma alter_last (f : Transport -> Transport) (l : list Transport) (x : Transport) :
  alter f (length l) (l ++ [x]) = l ++ [f x].
Proof.
  rewrite alter_app_r_alt by lia. by rewrite Nat.sub_diag.
Qed.

(** The init branch, computed: a new transport at the end of the heap,
    connected to a server; registered under [uuid] exactly when the SDK
    takes the request for an initialization. *)
Lemma post_mcp_init uuid req m :
  truthy_id (mcp_session_id req) = false -> isInitRequest (body req) = true ->
  post_mcp sdk_initializes uuid req m =
    (if sdk_initializes req then
       {| transports := <[uuid := length (transport_heap m)]> (transports m);
          transport_heap := transport_heap m ++ [initialised_transport uuid] |}
     else
       {| transports := transports m;
          transport_heap := transport_heap m ++ [connected_transport uuid] |},
     Handled (length (transport_heap m)) [("mcp-session-id", uuid)]).
Proof.
  intros Hno Hinit. unfold post_mcp. rewrite Hno, Hinit. simpl.
  unfold connect_server, update_transport, transport_handleRequest. simpl.
  rewrite alter_last. rewrite list_lookup_middle by done. simpl.
  destruct (sdk_initializes req); [| done].
  unfold onsessioninitialized, update_transport. simpl.
  by rewrite alter_last.
Qed.

Lemma get_property_Own (o : gmap string nat) key t :
  get_property o key = Own t -> o !! key = Some t.
Proof.
  unfold get_property. destruct (o !! key); [by intros [= ->] |].
  by case_bool_decide.
Qed.

(** Routing into whatever the session map holds leaves the map and the
    transports as they are. *)
Lemma dispatch_lookup_unchanged m sid headers req :
  mux_inv m ->
  (dispatch sdk_initializes (session_lookup m sid) headers req m).1 = m.
Proof.
  intros Hinv. unfold dispatch.
  destruct (session_lookup m sid) as [| t | name] eqn:Hp; [done | | done].
  simpl. destruct sid as [s|]; [| done]. simpl in Hp.
  apply get_property_Own in Hp.
  destruct (inv_registered m Hinv _ _ Hp) as (tr & Htr & Hid & _).
  unfold transport_handleRequest. by rewrite Htr, Hid.
Qed.

Lemma post_mcp_not_init_unchanged uuid req m :
  mux_inv m ->
  truthy_id (mcp_session_id req) = true \/ isInitRequest (body req) = false ->
  (post_mcp sdk_initializes uuid req m).1 = m.
Proof.
  intros Hinv Hcase. unfold post_mcp.
  destruct (truthy_id (mcp_session_id req) && truthy (session_lookup m (mcp_session_id req))).
  - by apply dispatch_lookup_unchanged.
  - destruct Hcase as [-> | ->]; simpl; [done |]. by rewrite andb_false_r.
Qed.

Lemma handleSessionRequest_unchanged req m :
  mux_inv m -> (handleSessionRequest sdk_initializes req m).1 = m.
Proof.
  intros Hinv. unfold handleSessionRequest.
  destruct (negb (truthy_id (mcp_session_id req))
            || negb (truthy (session_lookup m (mcp_session_id req)))); [done |].
  by apply dispatch_lookup_unchanged.
Qed.

Lemma mux_inv_start : mux_inv no_sessions.
Proof.
  split; unfold live_pairing, no_sessions; simpl.
  - intros id t H. by rewrite lookup_empty in H.
  - intros id t (tr & H & _). by rewrite lookup_nil in H.
  - intros t1 t2 tr1 tr2 id H. by rewrite lookup_nil in H.
  - intros t tr id H. by rewrite lookup_nil in H.
Qed.

(** A transport that was created but not initialised adds no pairing. *)
Lemma mux_inv_uninitialised uuid m :
  mux_inv m ->
  mux_inv {| transports := transports m;
             transport_heap := transport_heap m ++ [connected_transport uuid] |}.
Proof.
  intros [Hreg Hlive Huniq Huuid]. split; simpl.
  - intros id t H. destruct (Hreg _ _ H) as (tr & Htr & ?).
    exists tr. split; [by apply lookup_app_l_Some | done].
  - intros id t (tr & Htr & Hid & Hc & Hcl). apply Hlive.
    apply lookup_snoc_Some in Htr as [[_ Htr] | [_ <-]]; [| done].
    by exists tr.
  - intros t1 t2 tr1 tr2 id H1 H2 Hid1 Hid2.
    apply lookup_snoc_Some in H1 as [[_ H1] | [_ <-]]; [| done].
    apply lookup_snoc_Some in H2 as [[_ H2] | [_ <-]]; [| done].
    by eapply Huniq.
  - intros t tr id H Hid.
    apply lookup_snoc_Some in H as [[_ H] | [_ <-]]; [| done].
    by eapply Huuid.
Qed.

(** A transport initialised under a fresh id adds exactly its pairing. *)
Lemma mux_inv_initialised uuid m :
  mux_inv m -> fresh_uuid uuid m ->
  mux_inv {| transports := <[uuid := length (transport_heap m)]> (transports m);
             transport_heap := transport_heap m ++ [initialised_transport uuid] |}.
Proof.
  intros [Hreg Hlive Huniq Huuid] [Hlen Hfresh]. split; simpl.
  - intros id t H. apply lookup_insert_Some in H as [[<- <-] | [Hne H]].
    + exists (initialised_transport uuid). split; [by apply list_lookup_middle | done].
    + destruct (Hreg _ _ H) as (tr & Htr & ?).
      exists tr. split; [by apply lookup_app_l_Some | done].
  - intros id t (tr & Htr & Hid & Hc & Hcl).
    apply lookup_snoc_Some in Htr as [[_ Htr] | [-> <-]].
    + rewrite lookup_insert_ne.
      * apply Hlive. by exists tr.
      * intros <-. by eapply Hfresh.
    + simpl in Hid. injection Hid as <-. apply lookup_insert_eq.
  - intros t1 t2 tr1 tr2 id H1 H2 Hid1 Hid2.
    apply lookup_snoc_Some in H1 as [[_ H1] | [-> <-]];
      apply lookup_snoc_Some in H2 as [[_ H2] | [-> <-]].
    + by eapply Huniq.
    + simpl in Hid2. injection Hid2 as <-. by destruct (Hfresh _ _ H1).
    + simpl in Hid1. injection Hid1 as <-. by destruct (Hfresh _ _ H2).
    + done.
  - intros t tr id H Hid.
    apply lookup_snoc_Some in H as [[_ H] | [_ <-]].
    + by eapply Huuid.
    + simpl in Hid. by injection Hid as <-.
Qed.

Lemma truthy_uuid id : String.length id = 36%nat -> truthy_id (Some id) = true.
Proof.
  intros Hlen. unfold truthy_id. apply negb_true_iff, bool_decide_eq_false.
  by intros ->.
Qed.

(** Closure of transport [t]: computed on a state with the invariant. *)
Lemma transport_close_state m t tr id :
  mux_inv m -> transport_heap m !! t = Some tr -> sessionId tr = Some id ->
  transport_close t m =
    {| transports := delete id (transports m);
       transport_heap := alter set_closed t (transport_heap m) |}.
Proof.
  intros Hinv Htr Hid. unfold transport_close, onclose, update_transport. simpl.
  rewrite list_lookup_alter_eq, Htr. simpl. rewrite Hid.
  pose proof (truthy_uuid id (inv_uuid m Hinv _ _ _ Htr Hid)) as Htruthy.
  simpl in Htruthy. by rewrite Htruthy.
Qed.

Lemma transport_close_no_id m t :
  transport_heap m !! t ≫= sessionId = None ->
  transport_close t m = update_transport set_closed t m.
Proof.
  intros Hnone. unfold transport_close, onclose, update_transport. simpl.
  rewrite list_lookup_alter_eq.
  destruct (transport_heap m !! t) as [tr|]; simpl in *; [| done].
  by rewrite Hnone.
Qed.

Lemma lookup_set_closed (l : list Transport) t t' tr' :
  alter set_closed t l !! t' = Some tr' ->
  exists tr, l !! t' = Some tr /\ sessionId tr' = sessionId tr
    /\ server_connected tr' = server_connected tr
    /\ (closed tr' = false -> t' <> t /\ tr' = tr).
Proof.
  destruct (decide (t = t')) as [<- | Hne].
  - rewrite list_lookup_alter_eq. destruct (l !! t) as [tr|]; [| done].
    intros [= <-]. exists tr. by repeat split.
  - rewrite list_lookup_alter_ne by done. intros H. exists tr'. by repeat split.
Qed.

Lemma mux_inv_close m t : mux_inv m -> mux_inv (transport_close t m).
Proof.
  intros Hinv. pose proof Hinv as [Hreg Hlive Huniq Huuid].
  destruct (transport_heap m !! t ≫= sessionId) as [id|] eqn:Hsid.
  - destruct (transport_heap m !! t) as [tr|] eqn:Htr; [| done]. simpl in Hsid.
    rewrite (transport_close_state m t tr id) by done. split; simpl.
    + intros id' t' H. apply lookup_delete_Some in H as [Hne H].
      destruct (Hreg _ _ H) as (tr' & Htr' & Hid' & Hc & Hcl).
      exists tr'. split; [| done]. simpl.
      rewrite list_lookup_alter_ne; [done |].
      intros <-. rewrite Htr in Htr'. injection Htr' as <-. congruence.
    + intros id' t' (tr' & Htr' & Hid' & Hc & Hcl).
      apply lookup_set_closed in Htr' as (tr0 & Htr0 & Hs & Hco & Hopen).
      destruct (Hopen Hcl) as [Hne ->].
      rewrite lookup_delete_ne.
      * apply Hlive. by exists tr0.
      * intros <-. apply Hne. by eapply Huniq.
    + intros t1 t2 tr1 tr2 id' H1 H2 Hid1 Hid2.
      apply lookup_set_closed in H1 as (tr1' & H1 & Hs1 & _).
      apply lookup_set_closed in H2 as (tr2' & H2 & Hs2 & _).
      apply (Huniq t1 t2 tr1' tr2' id'); [done | done | congruence | congruence].
    + intros t' tr' id' H Hid'.
      apply lookup_set_closed in H as (tr0 & H & Hs & _).
      apply (Huuid t' tr0 id'); [done | congruence].
  - rewrite transport_close_no_id by done. split; simpl.
    + intros id' t' H.
      destruct (Hreg _ _ H) as (tr' & Htr' & Hid' & Hc & Hcl).
      exists tr'. split; [| done]. simpl.
      rewrite list_lookup_alter_ne; [done |].
      intros <-. by rewrite Htr' in Hsid; simpl in Hsid; congruence.
    + intros id' t' (tr' & Htr' & Hid' & Hc & Hcl).
      apply lookup_set_closed in Htr' as (tr0 & Htr0 & Hs & Hco & Hopen).
      destruct (Hopen Hcl) as [Hne ->]. apply Hlive. by exists tr0.
    + intros t1 t2 tr1 tr2 id' H1 H2 Hid1 Hid2.
      apply lookup_set_closed in H1 as (tr1' & H1 & Hs1 & _).
      apply lookup_set_closed in H2 as (tr2' & H2 & Hs2 & _).
      apply (Huniq t1 t2 tr1' tr2' id'); [done | done | congruence | congruence].
    + intros t' tr' id' H Hid'.
      apply lookup_set_closed in H as (tr0 & H & Hs & _).
      apply (Huuid t' tr0 id'); [done | congruence].
Qed.

Lemma mux_inv_post uuid req m :
  mux_inv m -> fresh_uuid uuid m -> mux_inv (post_mcp sdk_initializes uuid req m).1.
Proof.
  intros Hinv Hfresh.
  destruct (truthy_id (mcp_session_id req)) eqn:Hsid;
    [by rewrite post_mcp_not_init_unchanged by auto |].
  destruct (isInitRequest (body req)) eqn:Hinit;
    [| by rewrite post_mcp_not_init_unchanged by auto].
  rewrite post_mcp_init by done. simpl.
  destruct (sdk_initializes req).
  - by apply mux_inv_initialised.
  - by apply mux_inv_uninitialised.
Qed.

Lemma reachable_inv m : reachable sdk_initializes m -> mux_inv m.
Proof.
  induction 1 as [| uuid req m _ IH Hfresh | req m _ IH | t m _ IH].
  - apply mux_inv_start.
  - by apply mux_inv_post.
  - by rewrite handleSessionRequest_unchanged.
  - by apply mux_inv_close.
Qed.

(** Closing twice is closing once. *)
Lemma transport_close_idempotent m t :
  transport_close t (transport_close t m) = transport_close t m.
Proof.
  unfold transport_close, onclose, update_transport. simpl.
  rewrite !list_lookup_alter_eq.
  destruct (transport_heap m !! t) as [tr|] eqn:Htr; simpl;
    [ destruct (sessionId tr) as [id|] eqn:Hid; simpl;
      [ destruct (negb (bool_decide (id = ""))) eqn:Hne; simpl | ] | ];
    rewrite ?list_lookup_alter_eq, ?Htr; simpl; rewrite ?Hid; simpl;
    rewrite ?Hne; simpl;
    rewrite ?delete_delete_eq, list_alter_alter_eq; f_equal;
    by apply list_alter_ext.
Qed.
End Multiplexer.

(** C6, as the handler has it. A POST that carries no session id and
    passes the handler's initialization check draws a session id, creates a
    new transport with a server connected to it, and answers through that
    transport with the [mcp-session-id] header of the response set to the
    id.  The mapping from the id to the transport is registered when the
    SDK transport takes the request for an initialization, and is not
    registered when it does not. *)
Theorem init_request_opens_session
    (sdk_initializes : Request -> bool) (uuid : string) (req : Request) (m : Mux) :
  truthy_id (mcp_session_id req) = false ->
  isInitRequest (body req) = true ->
  let t := length (transport_heap m) in
  let m' := (post_mcp sdk_initializes uuid req m).1 in
  (post_mcp sdk_initializes uuid req m).2 = Handled t [("mcp-session-id", uuid)]
  /\ transport_heap m !! t = None
  /\ (exists tr, transport_heap m' = transport_heap m ++ [tr]
        /\ sessionIdGenerator tr = uuid /\ server_connected tr = true /\ closed tr = false)
  /\ (sdk_initializes req = true ->
      transports m' = <[uuid := t]> (transports m) /\ live_pairing m' uuid t)
  /\ (sdk_initializes req = false -> transports m' = transports m).
Proof.
  intros Hno Hinit. simpl.
  rewrite (post_mcp_init sdk_initializes uuid req m Hno Hinit). simpl.
  split; [done |]. split; [by apply lookup_ge_None_2 |].
  destruct (sdk_initializes req); simpl.
  - split; [by exists (initialised_transport uuid) |].
    split; [| done]. intros _. split; [done |].
    exists (initialised_transport uuid). split; [by apply list_lookup_middle | done].
  - split; [by exists (connected_transport uuid) |]. by split.
Qed.

Lemma init_request_opens_session_witness :
  (post_mcp declining_sdk uuid1 bare_init no_sessions).2
    = Handled 0%nat [("mcp-session-id", uuid1)]
  /\ transport_heap no_sessions !! 0%nat = None.
Proof.
  pose proof (init_request_opens_session declining_sdk uuid1 bare_init no_sessions
                eq_refl eq_refl) as H.
  split; [exact (proj1 H) | exact (proj1 (proj2 H))].
Defined.

(** C6 as stated fails on [bare_init], a request without session id that
    the handler recognises as an initialization, when the SDK transport
    does not take it for one: the response carries the drawn id, and no
    mapping is registered under it. *)
Lemma init_request_not_registered :
  truthy_id (mcp_session_id bare_init) = false
  /\ isInitRequest (body bare_init) = true
  /\ (post_mcp declining_sdk uuid1 bare_init no_sessions).2
       = Handled 0%nat [("mcp-session-id", uuid1)]
  /\ transports (post_mcp declining_sdk uuid1 bare_init no_sessions).1 !! uuid1 = None.
Proof. repeat split. Qed.

(** A request that is no initialization and whose session id is missing, or
    names neither a registered session nor a member of [Object.prototype],
    is rejected with status 400 and leaves the multiplexer as it was. *)
Lemma unknown_session_rejected
    (sdk_initializes : Request -> bool) (uuid : string) (req : Request) (m : Mux) :
  isInitRequest (body req) = false ->
  session_lookup m (mcp_session_id req) = Undefined ->
  post_mcp sdk_initializes uuid req m = (m, Rejected 400 bad_request)
  /\ handleSessionRequest sdk_initializes req m
       = (m, Rejected 400 (TextBody "Invalid or missing session ID")).
Proof.
  intros Hinit Hlookup. unfold post_mcp, handleSessionRequest.
  rewrite Hinit, Hlookup. simpl. by rewrite !andb_false_r, orb_true_r.
Qed.

(** C7, at the failing input. One session is open; a tool call arrives
    under the session id ["constructor"], and a GET or DELETE under
    ["__proto__"].  Neither id is in the session map, and the requests are
    no initialization.  [transports[sessionId]] evaluates to the member the
    map object inherits, the handlers take it for a transport and call
    [handleRequest] on it, which throws: there is no 400 response. *)
Theorem inherited_session_id_not_rejected (sdk_initializes : Request -> bool) (uuid : string) :
  transports one_session !! "constructor" = None
  /\ transports one_session !! "__proto__" = None
  /\ isInitRequest (body (tools_call (Some "constructor"))) = false
  /\ post_mcp sdk_initializes uuid (tools_call (Some "constructor")) one_session
       = (one_session, Thrown "transport.handleRequest is not a function")
  /\ handleSessionRequest sdk_initializes (tools_call (Some "__proto__")) one_session
       = (one_session, Thrown "transport.handleRequest is not a function").
Proof. repeat split; vm_compute; reflexivity. Qed.

(** C8. In every state the multiplexer reaches while each value of
    [randomUUID()] is fresh: when a transport that carries a session id
    signals closure, no mapping is left for that id; closing again changes
    nothing; at most one live pairing exists per session id, and the
    session map holds exactly the live pairings. *)
Theorem closure_removes_mapping (sdk_initializes : Request -> bool) (m : Mux) :
  reachable sdk_initializes m ->
  (forall t tr id,
     transport_heap m !! t = Some tr -> sessionId tr = Some id ->
     transports (transport_close t m) !! id = None)
  /\ (forall t, transport_close t (transport_close t m) = transport_close t m)
  /\ (forall id t1 t2, live_pairing m id t1 -> live_pairing m id t2 -> t1 = t2)
  /\ (forall id t, transports m !! id = Some t <-> live_pairing m id t).
Proof.
  intros Hreach. pose proof (reachable_inv _ _ Hreach) as Hinv.
  repeat split.
  - intros t tr id Htr Hid.
    rewrite (transport_close_state m t tr id) by done. simpl. apply lookup_delete_eq.
  - intros t. apply transport_close_idempotent.
  - intros id t1 t2 (tr1 & H1 & Hid1 & _) (tr2 & H2 & Hid2 & _).
    by eapply (inv_unique m Hinv).
  - by apply (inv_registered m Hinv).
  - by apply (inv_live m Hinv).
Qed.

Lemma closure_removes_mapping_witness :
  transports one_session !! uuid1 = Some 0%nat
  /\ transports (transport_close 0%nat one_session) !! uuid1 = None.
Proof.
  assert (reachable accepting_sdk one_session) as Hreach.
  { apply reach_post; [apply reach_start |].
    split; [reflexivity |]. intros t tr Ht. destruct t; discriminate Ht. }
  split; [reflexivity |].
  exact (proj1 (closure_removes_mapping accepting_sdk one_session Hreach)
           0%nat (initialised_transport uuid1) uuid1 eq_refl eq_refl).
Defined.

(** * Further properties of the transaction handlers *)

(** The four ways a call of [execute_rollback] ends on a well-formed
    registry, each with the state it leaves. *)
Lemma execute_rollback_cases (w : World) (id : string) (settled : Awaited unit) :
  well_formed w ->
  (transactions w !! id = None /\ execute_rollback id settled w = (w, NotFound id))
  \/ (exists tx t, registered w id tx t /\ released t = true
        /\ execute_rollback id settled w = (removeTransaction id w, AlreadyReleased id))
  \/ (exists tx t message, registered w id tx t /\ released t = false
        /\ settled = RejectedWith message
        /\ execute_rollback id settled w
             = (client_query (client t) "ROLLBACK" w, error_result message))
  \/ (exists tx t, registered w id tx t /\ released t = false
        /\ (exists u, settled = Fulfilled u)
        /\ execute_rollback id settled w
             = (removeTransaction id
                  (safelyReleaseClient (client t)
                     (set_released tx (client_query (client t) "ROLLBACK" w))),
                RolledBack id)).
Proof.
  intros Hwf.
  destruct (transactions w !! id) as [tx|] eqn:Hid.
  - destruct (Hwf _ _ Hid) as [t Htx]. right.
    destruct (released t) eqn:Hrel.
    + left. exists tx, t. repeat split; try done.
      unfold execute_rollback. by rewrite (rollback_begin_released _ _ _ _ Hid Htx Hrel).
    + right. unfold execute_rollback.
      rewrite (rollback_begin_open _ _ _ _ Hid Htx Hrel).
      destruct settled as [u | message].
      * right. exists tx, t. repeat split; try done; [by exists u |].
        by rewrite (rollback_resume_fulfilled _ _ _ t).
      * left. by exists tx, t, message.
  - left. split; [done |]. unfold execute_rollback. by rewrite rollback_begin_absent.
Qed.

Lemma release_count_app (c : Client) (w : World) (events : list PoolEvent) :
  release_count c {| transactions := transactions w; heap := heap w;
                     pool_log := pool_log w ++ events |}
  = (release_count c w + length (filter (fun e => e = Release c) events))%nat.
Proof. unfold release_count; simpl. by rewrite filter_app, length_app. Qed.

(** X1. A call of [execute_rollback(id)] leaves every other entry of the
    registry and every transaction object but the one behind [id] as they
    were, however its statement settles. *)
Theorem rollback_touches_only_its_entry
    (w : World) (id : string) (settled : Awaited unit) (id' : string) (tx' : TxRef) :
  id' <> id -> transactions w !! id <> Some tx' ->
  transactions (execute_rollback id settled w).1 !! id' = transactions w !! id'
  /\ heap (execute_rollback id settled w).1 !! tx' = heap w !! tx'
  /\ length (heap (execute_rollback id settled w).1) = length (heap w).
Proof.
  intros Hne Hother. unfold execute_rollback, rollback_begin, getTransaction.
  destruct (hasTransaction w id); simpl; [| done].
  destruct (transactions w !! id) as [tx|] eqn:Hid; [| done].
  destruct (heap w !! tx) as [t|] eqn:Htx; [| done].
  destruct (released t).
  - simpl. by rewrite lookup_delete_ne.
  - unfold rollback_resume. destruct settled as [u | message]; [| done].
    cbn [heap client_query]. rewrite Htx. simpl.
    rewrite lookup_delete_ne by done. rewrite length_alter.
    rewrite list_lookup_alter_ne; [done |]. intros ->. by apply Hother.
Qed.

Lemma rollback_touches_only_its_entry_witness :
  transactions (execute_rollback "tx-1" (Fulfilled ()) two_open).1 !! "tx-2" = Some 1%nat
  /\ heap (execute_rollback "tx-1" (Fulfilled ()) two_open).1 !! 1%nat
     = Some {| client := 8%nat; createdAt := 1200; released := false |}.
Proof.
  assert ("tx-2" <> "tx-1") as Hne by discriminate.
  assert (transactions two_open !! "tx-1" <> Some 1%nat) as Hother
    by (vm_compute; discriminate).
  pose proof (rollback_touches_only_its_entry two_open "tx-1" (Fulfilled ()) "tx-2" 1%nat
                Hne Hother) as H.
  split; [exact (proj1 H) | exact (proj1 (proj2 H))].
Defined.

(** X2. A call of [execute_rollback(id)] only appends to the calls on the
    pool: nothing, or the [ROLLBACK] query on the connection bound to [id],
    or that query followed by one release of that connection.  A connection
    that is not bound to [id] is not released by the call. *)
Theorem rollback_pool_calls (w : World) (id : string) (settled : Awaited unit) :
  (exists suffix,
     pool_log (execute_rollback id settled w).1 = pool_log w ++ suffix
     /\ (suffix = []
         \/ exists tx t, registered w id tx t /\ released t = false
              /\ (suffix = [Query (client t) "ROLLBACK"]
                  \/ suffix = [Query (client t) "ROLLBACK"; Release (client t)])))
  /\ (forall c, (forall tx t, registered w id tx t -> client t <> c) ->
        release_count c (execute_rollback id settled w).1 = release_count c w).
Proof.
  unfold execute_rollback, rollback_begin, getTransaction.
  destruct (hasTransaction w id); simpl;
    [| split; [exists []; by rewrite app_nil_r; auto | done]].
  destruct (transactions w !! id) as [tx|] eqn:Hid;
    [| split; [exists []; by rewrite app_nil_r; auto | done]].
  destruct (heap w !! tx) as [t|] eqn:Htx;
    [| split; [exists []; by rewrite app_nil_r; auto | done]].
  destruct (released t) eqn:Hrel;
    [split; [exists []; by rewrite app_nil_r; auto | done] |].
  unfold rollback_resume. destruct settled as [u | message].
  - cbn [heap client_query]. rewrite Htx. simpl. split.
    + exists [Query (client t) "ROLLBACK"; Release (client t)].
      split; [by rewrite <- app_assoc |]. right. exists tx, t. by repeat split; auto.
    + intros c Hc. unfold release_count; simpl.
      rewrite !filter_app, !length_app. simpl.
      rewrite filter_cons_False; [simpl; lia |].
      intros [= Heq]. by apply (Hc tx t).
  - simpl. split.
    + exists [Query (client t) "ROLLBACK"]. split; [done |].
      right. exists tx, t. by repeat split; auto.
    + intros c Hc. unfold release_count; simpl.
      rewrite filter_app, length_app. simpl. lia.
Qed.

(** X3. A call of [execute_rollback] that returns its confirmation lowers
    the transaction count by exactly one; if the count was at or below the
    ceiling before, the next [execute_dml_ddl_dcl_tcl] passes the admission
    gate and answers with what [handleExecuteDML] gives. *)
Theorem rollback_frees_a_slot
    (config : Config) (handleExecuteDML : Z -> string -> World -> World * Awaited ToolResult)
    (sql : string) (w w' : World) (id : string) (settled : Awaited unit) :
  execute_rollback id settled w = (w', RolledBack id) ->
  transactionCount w <= maxConcurrentTransactions config ->
  transactionCount w' = transactionCount w - 1
  /\ execute_dml_ddl_dcl_tcl config handleExecuteDML sql w'
     = settle (handleExecuteDML (transactionTimeoutMs config) sql w').
Proof.
  intros Hrun Hceiling.
  assert (transactionCount w' = transactionCount w - 1) as Hcount.
  { revert Hrun. unfold execute_rollback, rollback_begin, getTransaction.
    destruct (hasTransaction w id); simpl; [| intros [= _ ?]; done].
    destruct (transactions w !! id) as [tx|] eqn:Hid; [| intros [= _ ?]; done].
    destruct (heap w !! tx) as [t|] eqn:Htx; [| intros [= _ ?]; done].
    destruct (released t); [intros [= _ ?]; done |].
    unfold rollback_resume. destruct settled as [u | message]; [| intros [= _ ?]; done].
    cbn [heap client_query]. rewrite Htx. intros [= <-].
    unfold transactionCount; simpl.
    rewrite map_size_delete_Some by (by eexists).
    assert (size (transactions w) <> 0%nat) as Hpos.
    { apply map_size_ne_0_lookup. by exists id, tx. }
    lia. }
  split; [done |].
  unfold execute_dml_ddl_dcl_tcl, settle.
  rewrite bool_decide_eq_false_2 by lia.
  by destruct (handleExecuteDML (transactionTimeoutMs config) sql w') as [w2 [r | m]].
Qed.

Lemma rollback_frees_a_slot_witness :
  let w' := (execute_rollback "tx-1" (Fulfilled ()) two_open).1 in
  transactionCount w' = 1
  /\ (execute_dml_ddl_dcl_tcl ceiling_two registering_dml "UPDATE t SET x = 1" w').2
     = text_result "tx-3".
Proof.
  intros w'.
  assert (execute_rollback "tx-1" (Fulfilled ()) two_open = (w', RolledBack "tx-1")) as Hrun
    by reflexivity.
  assert (transactionCount two_open <= maxConcurrentTransactions ceiling_two) as Hceiling
    by (vm_compute; discriminate).
  destruct (rollback_frees_a_slot ceiling_two registering_dml "UPDATE t SET x = 1"
              two_open w' "tx-1" (Fulfilled ()) Hrun Hceiling) as [Hcount Hdml].
  split; [exact Hcount |]. rewrite Hdml. reflexivity.
Defined.

(** X4. The ceiling is kept by [execute_dml_ddl_dcl_tcl] run on its own:
    if [handleExecuteDML] registers at most one transaction per call and
    the count is at or below [maxConcurrentTransactions], it still is
    afterwards. *)
Theorem dml_keeps_ceiling
    (config : Config) (handleExecuteDML : Z -> string -> World -> World * Awaited ToolResult)
    (sql : string) (w : World) :
  (forall timeout s w0,
     transactionCount (handleExecuteDML timeout s w0).1 <= transactionCount w0 + 1) ->
  transactionCount w <= maxConcurrentTransactions config ->
  transactionCount (execute_dml_ddl_dcl_tcl config handleExecuteDML sql w).1
    <= maxConcurrentTransactions config.
Proof.
  intros Hone Hceiling. unfold execute_dml_ddl_dcl_tcl.
  case_bool_decide as Hfull; [done |].
  pose proof (Hone (transactionTimeoutMs config) sql w) as Hstep.
  destruct (handleExecuteDML (transactionTimeoutMs config) sql w) as [w2 [r | m]];
    simpl in *; lia.
Qed.

Lemma registering_dml_one (timeout : Z) (s : string) (w0 : World) :
  transactionCount (registering_dml timeout s w0).1 <= transactionCount w0 + 1.
Proof.
  unfold transactionCount, registering_dml; simpl. rewrite map_size_insert.
  destruct (transactions w0 !! "tx-3"); simpl; lia.
Qed.

Lemma dml_keeps_ceiling_witness :
  transactionCount (execute_dml_ddl_dcl_tcl ceiling_two registering_dml "UPDATE t SET x = 1"
                      one_open).1 <= 2
  /\ transactionCount (execute_dml_ddl_dcl_tcl ceiling_two registering_dml "UPDATE t SET x = 1"
                         two_open).1 <= 2.
Proof.
  split.
  - apply (dml_keeps_ceiling ceiling_two registering_dml "UPDATE t SET x = 1" one_open
             registering_dml_one).
    vm_compute. discriminate.
  - apply (dml_keeps_ceiling ceiling_two registering_dml "UPDATE t SET x = 1" two_open
             registering_dml_one).
    vm_compute. discriminate.
Defined.

(** X5. A rollback whose statement was rejected can be tried again: the
    second call, with a statement that succeeds, returns the confirmation,
    removes the entry and releases the connection once; over both calls the
    pool has seen two [ROLLBACK] queries and one release. *)
Theorem rollback_retry_after_failure
    (w : World) (id : string) (tx : TxRef) (t : Transaction) (message : string) :
  registered w id tx t -> released t = false ->
  let w1 := (execute_rollback id (RejectedWith message) w).1 in
  let w2 := (execute_rollback id (Fulfilled ()) w1).1 in
  (execute_rollback id (Fulfilled ()) w1).2 = RolledBack id
  /\ transactions w2 = delete id (transactions w)
  /\ pool_log w2 = pool_log w ++
       [Query (client t) "ROLLBACK"; Query (client t) "ROLLBACK"; Release (client t)]
  /\ release_count (client t) w2 = S (release_count (client t) w).
Proof.
  intros [Hid Htx] Hrel. simpl.
  assert (execute_rollback id (RejectedWith message) w
          = (client_query (client t) "ROLLBACK" w, error_result message)) as ->.
  { unfold execute_rollback. by rewrite (rollback_begin_open _ _ _ _ Hid Htx Hrel). }
  simpl.
  assert (execute_rollback id (Fulfilled ()) (client_query (client t) "ROLLBACK" w)
          = (removeTransaction id
               (safelyReleaseClient (client t)
                  (set_released tx
                     (client_query (client t) "ROLLBACK"
                        (client_query (client t) "ROLLBACK" w)))),
             RolledBack id)) as ->.
  { unfold execute_rollback.
    rewrite (rollback_begin_open (client_query (client t) "ROLLBACK" w) id tx t) by done.
    by rewrite (rollback_resume_fulfilled _ _ _ t). }
  simpl. repeat split.
  - by rewrite <- !app_assoc.
  - unfold release_count; simpl.
    rewrite !filter_app, !length_app. simpl.
    rewrite filter_cons_True by done. simpl. lia.
Qed.

Lemma rollback_retry_after_failure_witness :
  let w1 := (execute_rollback "tx-1" (RejectedWith "connection terminated") one_open).1 in
  (execute_rollback "tx-1" (Fulfilled ()) w1).2 = RolledBack "tx-1"
  /\ release_count 7%nat (execute_rollback "tx-1" (Fulfilled ()) w1).1 = 1%nat.
Proof.
  pose proof (rollback_retry_after_failure one_open "tx-1" 0%nat
                {| client := 7%nat; createdAt := 1000; released := false |}
                "connection terminated" (conj eq_refl eq_refl) eq_refl) as H.
  split; [exact (proj1 H) | exact (proj2 (proj2 (proj2 H)))].
Defined.

Lemma well_formed_remove (w : World) (id : string) :
  well_formed w -> well_formed (removeTransaction id w).
Proof.
  intros Hwf id' tx' H. simpl in H.
  apply lookup_delete_Some in H as [_ H]. by apply (Hwf id').
Qed.

Lemma well_formed_heap (w w' : World) :
  transactions w' = transactions w -> length (heap w') = length (heap w) ->
  well_formed w -> well_formed w'.
Proof.
  intros Hreg Hlen Hwf id tx H. rewrite Hreg in H.
  apply lookup_lt_is_Some. rewrite Hlen. apply lookup_lt_is_Some. by apply (Hwf id).
Qed.

(** X6. On a registry whose references all lead to a transaction object,
    every call of [execute_rollback(id)] answers with NotFound,
    AlreadyReleased, the confirmation, or the message of the rejected
    statement, so never with the message of a failed property read; and the
    registry it leaves is of the same kind. *)
Theorem rollback_answers (w : World) (id : string) (settled : Awaited unit) :
  well_formed w ->
  well_formed (execute_rollback id settled w).1
  /\ ((execute_rollback id settled w).2 = NotFound id
      \/ (execute_rollback id settled w).2 = AlreadyReleased id
      \/ (execute_rollback id settled w).2 = RolledBack id
      \/ exists message, settled = RejectedWith message
           /\ (execute_rollback id settled w).2 = error_result message).
Proof.
  intros Hwf.
  destruct (execute_rollback_cases w id settled Hwf)
    as [[_ ->] | [(tx & t & _ & _ & ->) | [(tx & t & m & _ & _ & Hs & ->)
                                           | (tx & t & _ & _ & _ & ->)]]]; simpl.
  - auto.
  - split; [by apply well_formed_remove | auto].
  - split; [| right; right; right; by exists m].
    by apply (well_formed_heap w).
  - split; [| auto]. apply well_formed_remove.
    apply (well_formed_heap w); [done | | done]. simpl. apply length_alter.
Qed.

Lemma two_open_well_formed : well_formed two_open.
Proof.
  intros id tx H. unfold two_open in H; simpl in H.
  apply lookup_insert_Some in H as [[_ <-] | [_ H]]; [by eexists |].
  apply lookup_singleton_Some in H as [_ <-]. by eexists.
Qed.

Lemma rollback_answers_witness :
  well_formed (execute_rollback "tx-1" (Fulfilled ()) two_open).1
  /\ well_formed (execute_rollback "tx-9" (Fulfilled ()) two_open).1.
Proof.
  split.
  - exact (proj1 (rollback_answers two_open "tx-1" (Fulfilled ()) two_open_well_formed)).
  - exact (proj1 (rollback_answers two_open "tx-9" (Fulfilled ()) two_open_well_formed)).
Defined.

Lemma acquire_count_app (c : Client) (w : World) (events : list PoolEvent) :
  acquire_count c {| transactions := transactions w; heap := heap w;
                     pool_log := pool_log w ++ events |}
  = (acquire_count c w + length (filter (fun e => e = Acquire c) events))%nat.
Proof. unfold acquire_count; simpl. by rewrite filter_app, length_app. Qed.

(** The counts of a state depend on its log only. *)
Lemma counts_by_log (c : Client) (w w' : World) :
  pool_log w' = pool_log w ->
  acquire_count c w' = acquire_count c w /\ release_count c w' = release_count c w.
Proof. intros H. unfold acquire_count, release_count. by rewrite H. Qed.

(** What is registered once the entry [id] has been removed. *)
Lemma registered_remove (w : World) (id id' : string) (tx' : TxRef) (t' : Transaction) :
  registered (removeTransaction id w) id' tx' t' -> id' <> id /\ registered w id' tx' t'.
Proof.
  intros [H1 H2]. simpl in *. apply lookup_delete_Some in H1 as [Hne H1].
  by repeat split.
Qed.

(** An open transaction that is registered after a confirmed rollback of
    [id] was registered before, as the same object, and is not the one
    behind [id]. *)
Lemma registered_after_rollback
    (w : World) (id : string) (tx : TxRef) (c : Client)
    (id' : string) (tx' : TxRef) (t' : Transaction) :
  registered
    (removeTransaction id (safelyReleaseClient c (set_released tx (client_query c "ROLLBACK" w))))
    id' tx' t' ->
  released t' = false ->
  id' <> id /\ tx' <> tx /\ registered w id' tx' t'.
Proof.
  intros [H1 H2] Hopen. simpl in *. apply lookup_delete_Some in H1 as [Hne H1].
  destruct (decide (tx' = tx)) as [-> | Hntx].
  - rewrite list_lookup_alter_eq in H2.
    destruct (heap w !! tx) as [t0|]; simpl in H2; [| done].
    injection H2 as <-. done.
  - rewrite list_lookup_alter_ne in H2 by done. by repeat split.
Qed.

(** X7. Calls of [execute_rollback] that do not overlap keep the hold of
    the open transactions on their connections: no two open transactions
    share a connection, and each connection is out of the pool once.  A
    call that returns its confirmation has handed the connection of its
    transaction back exactly once: for that connection, acquisitions and
    releases are level again. *)
Theorem sequential_rollback_releases_once
    (w : World) (id : string) (settled : Awaited unit) :
  holds_connections w ->
  holds_connections (execute_rollback id settled w).1
  /\ (forall tx t,
        registered w id tx t -> (execute_rollback id settled w).2 = RolledBack id ->
        release_count (client t) (execute_rollback id settled w).1
          = S (release_count (client t) w)
        /\ acquire_count (client t) (execute_rollback id settled w).1
          = release_count (client t) (execute_rollback id settled w).1).
Proof.
  intros (Hwf & Hexcl & Hheld).
  destruct (execute_rollback_cases w id settled Hwf)
    as [[Habsent ->] | [(tx & t & Hreg & Hrel & ->) | [(tx & t & m & Hreg & Hrel & Hs & ->)
                                                      | (tx & t & Hreg & Hrel & _ & ->)]]];
    simpl.
  - split; [done |]. intros tx t [Hid _]. congruence.
  - split; [| intros ? ? _ [=]].
    split; [by apply well_formed_remove |]. split.
    + intros id1 id2 tx1 tx2 t1 t2 H1 H2.
      apply registered_remove in H1 as [_ H1]. apply registered_remove in H2 as [_ H2].
      by apply (Hexcl id1 id2 tx1 tx2).
    + intros id' tx' t' H' Hopen. apply registered_remove in H' as [_ H'].
      destruct (counts_by_log (client t') w (removeTransaction id w) eq_refl) as [-> ->].
      by apply (Hheld id' tx').
  - split; [| intros ? ? _ [=]].
    split; [by apply (well_formed_heap w) |]. split.
    + intros id1 id2 tx1 tx2 t1 t2 H1 H2. by apply (Hexcl id1 id2 tx1 tx2).
    + intros id' tx' t' H' Hopen. unfold client_query.
      rewrite acquire_count_app, release_count_app. simpl.
      rewrite (Hheld id' tx' t') by done. lia.
  - split.
    + split.
      { apply well_formed_remove. apply (well_formed_heap w); [done | | done].
        simpl. apply length_alter. }
      split.
      * intros id1 id2 tx1 tx2 t1 t2 H1 H2 Ho1 Ho2.
        apply registered_after_rollback in H1 as (_ & _ & H1); [| done].
        apply registered_after_rollback in H2 as (_ & _ & H2); [| done].
        by apply (Hexcl id1 id2 tx1 tx2).
      * intros id' tx' t' H' Hopen.
        apply registered_after_rollback in H' as (Hne & _ & H'); [| done].
        assert (client t' <> client t) as Hc.
        { intros Heq. apply Hne. by apply (Hexcl id' id tx' tx t' t). }
        unfold acquire_count, release_count. simpl.
        rewrite !filter_app, !length_app. simpl.
        rewrite filter_cons_False by congruence. simpl.
        pose proof (Hheld id' tx' t' H' Hopen) as Hbal.
        unfold acquire_count, release_count in Hbal. lia.
    + intros tx0 t0 [Hid0 Htx0] _. destruct Hreg as [Hid Htx].
      assert (tx0 = tx) as -> by congruence. assert (t0 = t) as -> by congruence.
      pose proof (Hheld id tx t (conj Hid Htx) Hrel) as Hbal.
      unfold acquire_count, release_count in *. simpl.
      rewrite !filter_app, !length_app. simpl.
      rewrite filter_cons_True by done. simpl. lia.
Qed.

Lemma two_open_holds_connections : holds_connections two_open.
Proof.
  assert (forall id tx t, registered two_open id tx t ->
            (id = "tx-1" /\ client t = 7%nat) \/ (id = "tx-2" /\ client t = 8%nat)) as Hreg.
  { intros id tx t [H1 H2]. unfold two_open in *; simpl in *.
    apply lookup_insert_Some in H1 as [[<- <-] | [_ H1]].
    - left. injection H2 as <-. done.
    - apply lookup_singleton_Some in H1 as [<- <-]. right. injection H2 as <-. done. }
  split; [apply two_open_well_formed |]. split.
  - intros id1 id2 tx1 tx2 t1 t2 H1 H2 _ _ Hc.
    destruct (Hreg _ _ _ H1) as [[-> E1] | [-> E1]];
      destruct (Hreg _ _ _ H2) as [[-> E2] | [-> E2]]; congruence.
  - intros id tx t H _.
    destruct (Hreg _ _ _ H) as [[-> E] | [-> E]]; rewrite E; reflexivity.
Qed.

Lemma sequential_rollback_releases_once_witness :
  holds_connections (execute_rollback "tx-1" (Fulfilled ()) two_open).1
  /\ acquire_count 7%nat (execute_rollback "tx-1" (Fulfilled ()) two_open).1
     = release_count 7%nat (execute_rollback "tx-1" (Fulfilled ()) two_open).1.
Proof.
  destruct (sequential_rollback_releases_once two_open "tx-1" (Fulfilled ())
              two_open_holds_connections) as [Hkeeps Honce].
  split; [exact Hkeeps |].
  exact (proj2 (Honce 0%nat {| client := 7%nat; createdAt := 1000; released := false |}
                  (conj eq_refl eq_refl) eq_refl)).
Defined.



(** * Further properties of the session multiplexer *)

(** X8. The handler's initialization check accepts exactly the bodies that
    are objects with [method] equal to ["initialize"], an object under
    [params], and a string under [params.protocolVersion]; a [params] of
    [null] or an array, whose [typeof] is ["object"] too, is not accepted. *)
Theorem isInitRequest_spec (b : option JSON) :
  isInitRequest b = true <->
  exists members params version,
    b = Some (JObject members)
    /\ assoc "method" members = Some (JString "initialize")
    /\ assoc "params" members = Some (JObject params)
    /\ assoc "protocolVersion" params = Some (JString version).
Proof.
  split.
  - unfold isInitRequest. intros H.
    apply andb_true_iff in H as [H Hversion]. apply andb_true_iff in H as [Hmethod _].
    destruct b as [[| | | | | members]|]; try discriminate Hmethod. simpl in *.
    destruct (assoc "method" members) as [[| | | method | |]|] eqn:Hm; try discriminate Hmethod.
    apply bool_decide_eq_true in Hmethod as ->.
    apply bool_decide_eq_true in Hversion.
    destruct (assoc "params" members) as [[| | | | | params]|] eqn:Hp;
      try discriminate Hversion. simpl in Hversion.
    destruct (assoc "protocolVersion" params) as [[| | | version | |]|] eqn:Hv;
      try discriminate Hversion.
    by exists members, params, version.
  - intros (members & params & version & -> & Hm & Hp & Hv).
    unfold isInitRequest. simpl. by rewrite Hm, Hp; simpl; rewrite Hv.
Qed.

Lemma prototype_key_length (key : string) :
  key ∈ object_prototype -> String.length key <> 36%nat.
Proof.
  assert (Forall (fun k => String.length k <> 36%nat) object_prototype) as Hall.
  { unfold object_prototype. repeat constructor; discriminate. }
  intros Hin. by apply (proj1 (Forall_forall _ _) Hall).
Qed.

(** A key of 36 characters that is not registered evaluates to
    [undefined]. *)
Lemma session_lookup_unregistered (m : Mux) (id : string) :
  String.length id = 36%nat -> transports m !! id = None ->
  session_lookup m (Some id) = Undefined.
Proof.
  intros Hlen Hnone. simpl. unfold get_property. rewrite Hnone.
  rewrite bool_decide_eq_false_2; [done |].
  intros Hin. by apply (prototype_key_length id Hin).
Qed.

(** A request whose session id is non-empty and evaluates to [undefined]
    in the session map is answered with status 400 by both handlers, and
    the multiplexer stays as it is. *)
Lemma lookup_undefined_rejected
    (sdk_initializes : Request -> bool) (uuid : string) (req : Request) (m : Mux) :
  truthy_id (mcp_session_id req) = true ->
  session_lookup m (mcp_session_id req) = Undefined ->
  post_mcp sdk_initializes uuid req m = (m, Rejected 400 bad_request)
  /\ handleSessionRequest sdk_initializes req m
     = (m, Rejected 400 (TextBody "Invalid or missing session ID")).
Proof.
  intros Htruthy Hlookup. unfold post_mcp, handleSessionRequest.
  by rewrite Htruthy, Hlookup.
Qed.

(** A request under a registered session id goes to the transport of that
    session, and the multiplexer stays as it is. *)
Lemma registered_session_routed
    (sdk_initializes : Request -> bool) (uuid : string) (req : Request) (m : Mux)
    (id : string) (t : TransportRef) :
  mux_inv m -> mcp_session_id req = Some id -> transports m !! id = Some t ->
  post_mcp sdk_initializes uuid req m = (m, Handled t [])
  /\ handleSessionRequest sdk_initializes req m = (m, Handled t []).
Proof.
  intros Hinv Hsid Hreg.
  destruct (inv_registered m Hinv _ _ Hreg) as (tr & Htr & Hid & _).
  pose proof (truthy_uuid id (inv_uuid m Hinv _ _ _ Htr Hid)) as Htruthy.
  assert (session_lookup m (mcp_session_id req) = Own t) as Hlookup.
  { rewrite Hsid. simpl. unfold get_property. by rewrite Hreg. }
  unfold post_mcp, handleSessionRequest. rewrite Hlookup, Hsid, Htruthy. simpl.
  unfold transport_handleRequest. by rewrite Htr, Hid.
Qed.

(** X9. In every reachable state a request that carries a registered
    session id is handed to the transport registered under it.  A POST is,
    whatever its body (an initialization too), and leaves the session map
    and the transports as they are.  A GET or DELETE is handed to that
    transport as well; what the SDK does to the transport while it serves
    the request (a DELETE makes it signal closure) is not part of this
    statement. *)
Theorem known_session_is_routed
    (sdk_initializes : Request -> bool) (uuid : string) (req : Request) (m : Mux)
    (id : string) (t : TransportRef) :
  reachable sdk_initializes m ->
  mcp_session_id req = Some id -> transports m !! id = Some t ->
  post_mcp sdk_initializes uuid req m = (m, Handled t [])
  /\ (handleSessionRequest sdk_initializes req m).2 = Handled t [].
Proof.
  intros Hreach Hsid Hreg.
  destruct (registered_session_routed sdk_initializes uuid req m id t
              (reachable_inv _ _ Hreach) Hsid Hreg) as [Hpost Hget].
  split; [done |]. by rewrite Hget.
Qed.

Lemma one_session_reachable : reachable accepting_sdk one_session.
Proof.
  apply reach_post; [apply reach_start |].
  split; [reflexivity |]. intros t tr Ht. destruct t; discriminate Ht.
Qed.

Lemma known_session_is_routed_witness :
  post_mcp accepting_sdk uuid1 (tools_call (Some uuid1)) one_session
    = (one_session, Handled 0%nat [])
  /\ (handleSessionRequest accepting_sdk (tools_call (Some uuid1)) one_session).2
    = Handled 0%nat [].
Proof.
  exact (known_session_is_routed accepting_sdk uuid1 (tools_call (Some uuid1)) one_session
           uuid1 0%nat one_session_reachable eq_refl eq_refl).
Defined.

(** X10. An empty [mcp-session-id] header counts as no session id: GET and
    DELETE are rejected with status 400; a POST is rejected unless its body
    is an initialization, in which case a new transport is created and the
    response carries the drawn session id. *)
Theorem empty_session_id_is_missing
    (sdk_initializes : Request -> bool) (uuid : string) (req : Request) (m : Mux) :
  mcp_session_id req = Some "" ->
  handleSessionRequest sdk_initializes req m
    = (m, Rejected 400 (TextBody "Invalid or missing session ID"))
  /\ (isInitRequest (body req) = false ->
      post_mcp sdk_initializes uuid req m = (m, Rejected 400 bad_request))
  /\ (isInitRequest (body req) = true ->
      (post_mcp sdk_initializes uuid req m).2
        = Handled (length (transport_heap m)) [("mcp-session-id", uuid)]).
Proof.
  intros Hsid. repeat split.
  - unfold handleSessionRequest. by rewrite Hsid.
  - intros Hinit. unfold post_mcp. by rewrite Hsid, Hinit.
  - intros Hinit. rewrite post_mcp_init; [done | by rewrite Hsid | done].
Qed.

Lemma empty_session_id_is_missing_witness :
  handleSessionRequest accepting_sdk (tools_call (Some "")) one_session
    = (one_session, Rejected 400 (TextBody "Invalid or missing session ID"))
  /\ post_mcp accepting_sdk uuid1 (tools_call (Some "")) one_session
    = (one_session, Rejected 400 bad_request).
Proof.
  destruct (empty_session_id_is_missing accepting_sdk uuid1 (tools_call (Some "")) one_session
              eq_refl) as (Hget & Hpost & _).
  split; [exact Hget | exact (Hpost eq_refl)].
Defined.

(** X11. A session id that is not empty, not registered and no member of
    [Object.prototype] opens nothing: the request is rejected with status
    400 by both handlers and the multiplexer stays as it is, also when the
    body of a POST is an initialization. *)
Theorem unregistered_session_id_rejected
    (sdk_initializes : Request -> bool) (uuid : string) (req : Request) (m : Mux)
    (id : string) :
  mcp_session_id req = Some id -> id <> "" ->
  transports m !! id = None -> id ∉ object_prototype ->
  post_mcp sdk_initializes uuid req m = (m, Rejected 400 bad_request)
  /\ handleSessionRequest sdk_initializes req m
     = (m, Rejected 400 (TextBody "Invalid or missing session ID")).
Proof.
  intros Hsid Hne Hnone Hproto. apply lookup_undefined_rejected.
  - rewrite Hsid. simpl. by rewrite bool_decide_eq_false_2.
  - rewrite Hsid. simpl. unfold get_property. rewrite Hnone.
    by rewrite bool_decide_eq_false_2.
Qed.

Lemma unregistered_session_id_rejected_witness :
  post_mcp accepting_sdk uuid1
    {| mcp_session_id := Some "bogus"; body := body initialize_request |} one_session
  = (one_session, Rejected 400 bad_request).
Proof.
  assert ("bogus" <> "") as Hne by discriminate.
  assert (transports one_session !! "bogus" = None) as Hnone by (vm_compute; reflexivity).
  assert ("bogus" ∉ object_prototype) as Hproto.
  { apply (bool_decide_unpack ("bogus" ∉ object_prototype)). vm_compute. exact I. }
  exact (proj1 (unregistered_session_id_rejected accepting_sdk uuid1
                  {| mcp_session_id := Some "bogus"; body := body initialize_request |}
                  one_session "bogus" eq_refl Hne Hnone Hproto)).
Defined.

(** A fresh id is not registered. *)
Lemma fresh_uuid_unregistered (m : Mux) (uuid : string) :
  mux_inv m -> fresh_uuid uuid m -> transports m !! uuid = None.
Proof.
  intros Hinv [_ Hfresh].
  destruct (transports m !! uuid) as [t|] eqn:Hreg; [| done].
  destruct (inv_registered m Hinv _ _ Hreg) as (tr & Htr & Hid & _).
  by destruct (Hfresh t tr Htr).
Qed.

(** X12. Opening a session and using it: in the state an initialization
    leaves when the SDK accepts it (reachable state before, fresh id), a
    request that carries the id of the response is handed to the transport
    created for it.  A POST leaves the multiplexer as it is; a GET or
    DELETE is handed to the same transport, and what the SDK does to the
    transport while serving it is not part of this statement. *)
Theorem session_round_trip
    (sdk_initializes : Request -> bool) (uuid uuid' : string) (req req' : Request) (m : Mux) :
  reachable sdk_initializes m -> fresh_uuid uuid m ->
  truthy_id (mcp_session_id req) = false ->
  isInitRequest (body req) = true ->
  sdk_initializes req = true ->
  mcp_session_id req' = Some uuid ->
  let m' := (post_mcp sdk_initializes uuid req m).1 in
  post_mcp sdk_initializes uuid' req' m' = (m', Handled (length (transport_heap m)) [])
  /\ (handleSessionRequest sdk_initializes req' m').2 = Handled (length (transport_heap m)) [].
Proof.
  intros Hreach Hfresh Hno Hinit Hsdk Hsid m'.
  assert (mux_inv m') as Hinv'.
  { apply (reachable_inv sdk_initializes). by apply reach_post. }
  assert (transports m' !! uuid = Some (length (transport_heap m))) as Hreg.
  { unfold m'. rewrite post_mcp_init, Hsdk by done. simpl. apply lookup_insert_eq. }
  destruct (registered_session_routed sdk_initializes uuid' req' m' uuid _ Hinv' Hsid Hreg)
    as [Hpost Hget].
  split; [done |]. by rewrite Hget.
Qed.

Lemma no_sessions_fresh : fresh_uuid uuid1 no_sessions.
Proof. split; [reflexivity |]. intros t tr Ht. destruct t; discriminate Ht. Qed.

Lemma session_round_trip_witness :
  post_mcp accepting_sdk "unused" (tools_call (Some uuid1)) one_session
    = (one_session, Handled 0%nat []).
Proof.
  exact (proj1 (session_round_trip accepting_sdk uuid1 "unused" initialize_request
                  (tools_call (Some uuid1)) no_sessions
                  (reach_start accepting_sdk) no_sessions_fresh
                  eq_refl eq_refl eq_refl eq_refl)).
Defined.

(** X13. Once a transport has signalled closure, the session id it carried
    is unknown: in every reachable state, requests under that id are
    rejected with status 400 by both handlers after the closure, whatever
    their body. *)
Theorem closed_session_is_rejected
    (sdk_initializes : Request -> bool) (uuid : string) (req : Request) (m : Mux)
    (t : TransportRef) (tr : Transport) (id : string) :
  reachable sdk_initializes m ->
  transport_heap m !! t = Some tr -> sessionId tr = Some id ->
  mcp_session_id req = Some id ->
  post_mcp sdk_initializes uuid req (transport_close t m)
    = (transport_close t m, Rejected 400 bad_request)
  /\ handleSessionRequest sdk_initializes req (transport_close t m)
    = (transport_close t m, Rejected 400 (TextBody "Invalid or missing session ID")).
Proof.
  intros Hreach Htr Hid Hsid.
  pose proof (reachable_inv _ _ Hreach) as Hinv.
  pose proof (inv_uuid m Hinv _ _ _ Htr Hid) as Hlen.
  apply lookup_undefined_rejected.
  - rewrite Hsid. by apply truthy_uuid.
  - rewrite Hsid. apply session_lookup_unregistered; [done |].
    rewrite (transport_close_state m t tr id) by done. simpl. apply lookup_delete_eq.
Qed.

Lemma closed_session_is_rejected_witness :
  post_mcp accepting_sdk "unused" (tools_call (Some uuid1)) (transport_close 0%nat one_session)
    = (transport_close 0%nat one_session, Rejected 400 bad_request).
Proof.
  exact (proj1 (closed_session_is_rejected accepting_sdk "unused" (tools_call (Some uuid1))
                  one_session 0%nat (initialised_transport uuid1) uuid1
                  one_session_reachable eq_refl eq_refl eq_refl)).
Defined.

(** X14. The closure of one transport costs no other session its mapping:
    in every reachable state, a session registered to another transport is
    registered to it afterwards as well, and its pairing is live. *)
Theorem closure_keeps_other_sessions
    (sdk_initializes : Request -> bool) (m : Mux) (t t' : TransportRef) (id' : string) :
  reachable sdk_initializes m ->
  transports m !! id' = Some t' -> t' <> t ->
  transports (transport_close t m) !! id' = Some t'
  /\ live_pairing (transport_close t m) id' t'.
Proof.
  intros Hreach Hreg Hne.
  pose proof (reachable_inv _ _ Hreach) as Hinv.
  assert (transports (transport_close t m) !! id' = Some t') as Hkept.
  { destruct (transport_heap m !! t ≫= sessionId) as [id|] eqn:Hsid.
    - destruct (transport_heap m !! t) as [tr|] eqn:Htr; [| done]. simpl in Hsid.
      rewrite (transport_close_state m t tr id) by done. simpl.
      rewrite lookup_delete_ne; [done |]. intros <-.
      destruct (inv_registered m Hinv _ _ Hreg) as (tr' & Htr' & Hid' & _).
      apply Hne. by apply (inv_unique m Hinv t' t tr' tr id).
    - by rewrite transport_close_no_id. }
  split; [done |].
  apply (inv_registered _ (mux_inv_close m t Hinv)). done.
Qed.

Lemma two_sessions_reachable : reachable accepting_sdk two_sessions.
Proof.
  apply reach_post; [apply one_session_reachable |].
  split; [reflexivity |]. intros t tr Ht.
  destruct t as [| t]; [injection Ht as <-; discriminate |]. destruct t; discriminate Ht.
Qed.

Lemma closure_keeps_other_sessions_witness :
  transports (transport_close 0%nat two_sessions) !! uuid2 = Some 1%nat
  /\ transports (transport_close 0%nat two_sessions) !! uuid1 = None.
Proof.
  assert (transports two_sessions !! uuid2 = Some 1%nat) as Hreg by (vm_compute; reflexivity).
  assert (1%nat <> 0%nat) as Hne by discriminate.
  split.
  - exact (proj1 (closure_keeps_other_sessions accepting_sdk two_sessions 0%nat 1%nat uuid2
                    two_sessions_reachable Hreg Hne)).
  - vm_compute. reflexivity.
Defined.

(** X15. A POST never costs a session its mapping and never creates more
    than one transport: in every reachable state and with a fresh id, the
    session map before the request is included in the one after it, which
    has at most one entry more, and the transports after it are those
    before it, untouched, followed by at most one new transport. *)
Theorem post_keeps_sessions
    (sdk_initializes : Request -> bool) (uuid : string) (req : Request) (m : Mux) :
  reachable sdk_initializes m -> fresh_uuid uuid m ->
  let m' := (post_mcp sdk_initializes uuid req m).1 in
  transports m ⊆ transports m'
  /\ (size (transports m') <= S (size (transports m)))%nat
  /\ exists new, transport_heap m' = transport_heap m ++ new /\ (length new <= 1)%nat.
Proof.
  intros Hreach Hfresh m'. unfold m'.
  pose proof (reachable_inv _ _ Hreach) as Hinv.
  destruct (truthy_id (mcp_session_id req)) eqn:Hsid;
    [rewrite post_mcp_not_init_unchanged by auto;
     repeat split; [done | lia | exists []; by rewrite app_nil_r; auto] |].
  destruct (isInitRequest (body req)) eqn:Hinit;
    [| rewrite post_mcp_not_init_unchanged by auto;
       repeat split; [done | lia | exists []; by rewrite app_nil_r; auto]].
  rewrite post_mcp_init by done. simpl.
  destruct (sdk_initializes req); simpl.
  - pose proof (fresh_uuid_unregistered m uuid Hinv Hfresh) as Hnone.
    repeat split.
    + by apply insert_subseteq.
    + rewrite map_size_insert_None by done. lia.
    + by exists [initialised_transport uuid].
  - repeat split; [done | lia |]. by exists [connected_transport uuid].
Qed.

Lemma post_keeps_sessions_witness :
  transports one_session ⊆ transports two_sessions.
Proof.
  assert (fresh_uuid uuid2 one_session) as Hfresh.
  { split; [reflexivity |]. intros t tr Ht.
    destruct t as [| t]; [injection Ht as <-; discriminate |]. destruct t; discriminate Ht. }
  exact (proj1 (post_keeps_sessions accepting_sdk uuid2 initialize_request one_session
                  one_session_reachable Hfresh)).
Defined.



(** * Properties of [transformHandlerResponse] on objects *)

Lemma transform_item_idempotent (item item' : JSON) :
  Wire.transform_item item = Fulfilled item' ->
  Wire.transform_item item' = Fulfilled item'.
Proof.
  destruct item as [| b | n | s | items | members]; simpl;
    try (intros [= <-]; reflexivity); try discriminate.
  destruct (assoc "type" members) as [[| | | type | |]|] eqn:Htype;
    try (intros [= <-]; simpl; by rewrite Htype).
  case_bool_decide as Htext.
  - intros [= <-]. simpl. by destruct (assoc "text" members).
  - intros [= <-]. simpl. rewrite Htype. by rewrite bool_decide_eq_false_2.
Qed.

Lemma transform_items_idempotent (items items' : list JSON) :
  Wire.transform_items items = Fulfilled items' ->
  Wire.transform_items items' = Fulfilled items'.
Proof.
  revert items'. induction items as [| item rest IH]; intros items'; simpl.
  - by intros [= <-].
  - destruct (Wire.transform_item item) as [item1 |] eqn:Hitem; [| discriminate].
    destruct (Wire.transform_items rest) as [rest1 |] eqn:Hrest; [| discriminate].
    intros [= <-]. simpl.
    by rewrite (transform_item_idempotent _ _ Hitem), (IH rest1 eq_refl).
Qed.

Lemma assoc_set_member_eq (name : string) (v : JSON) (members : list (string * JSON)) :
  assoc name (Wire.set_member name v members) = Some v.
Proof.
  induction members as [| [k old] rest IH]; simpl.
  - by rewrite decide_True.
  - destruct (decide (k = name)) as [-> | Hne]; simpl.
    + by rewrite decide_True.
    + by rewrite decide_False.
Qed.

Lemma assoc_set_member_ne (name k : string) (v : JSON) (members : list (string * JSON)) :
  k <> name -> assoc k (Wire.set_member name v members) = assoc k members.
Proof.
  intros Hne. induction members as [| [k0 old] rest IH]; simpl.
  - by rewrite decide_False.
  - destruct (decide (k0 = name)) as [-> | Hne0]; simpl.
    + by rewrite !decide_False.
    + destruct (decide (k0 = k)); [done | apply IH].
Qed.

Lemma set_member_idempotent (name : string) (v : JSON) (members : list (string * JSON)) :
  Wire.set_member name v (Wire.set_member name v members) = Wire.set_member name v members.
Proof.
  induction members as [| [k old] rest IH]; simpl.
  - by rewrite decide_True.
  - destruct (decide (k = name)) as [-> | Hne]; simpl.
    + by rewrite decide_True.
    + rewrite decide_False by done. by rewrite IH.
Qed.

Lemma set_member_names (name : string) (v : JSON) (members : list (string * JSON)) :
  is_Some (assoc name members) ->
  map fst (Wire.set_member name v members) = map fst members.
Proof.
  induction members as [| [k old] rest IH]; simpl; [by intros [? ?] |].
  destruct (decide (k = name)) as [-> | Hne]; simpl; [done |].
  intros H. by rewrite IH.
Qed.

(** X17. [transformHandlerResponse] is idempotent: a result that it has
    transformed is returned unchanged when it is transformed again. *)
Theorem transform_idempotent (result result' : option (list (string * JSON))) :
  Wire.transformHandlerResponse result = Fulfilled result' ->
  Wire.transformHandlerResponse result' = Fulfilled result'.
Proof.
  intros Hrun. pose proof Hrun as H.
  destruct result as [members |]; simpl in H; [| by injection H as <-].
  destruct (assoc "content" members) as [content |] eqn:Hcontent;
    [| by injection H as <-].
  destruct content as [| b | n | s | items | inner];
    try (simpl in H;
         first [ discriminate
               | repeat (case_match; try discriminate); by injection H as <- ]).
  destruct (Wire.transform_items items) as [items1 |] eqn:Hitems; [| discriminate].
  injection H as <-. simpl. rewrite assoc_set_member_eq.
  rewrite (transform_items_idempotent _ _ Hitems).
  by rewrite set_member_idempotent.
Qed.

Lemma transform_idempotent_witness :
  Wire.transformHandlerResponse
    (Some [ ("content", JArray [ JObject [ ("type", JString "text") ; ("text", JString "ok") ] ]) ])
  = Fulfilled
      (Some [ ("content", JArray [ JObject [ ("type", JString "text") ; ("text", JString "ok") ] ]) ]).
Proof.
  exact (transform_idempotent
           (Some [ ("content", JArray [ JObject [ ("text", JString "ok");
                                                   ("type", JString "text");
                                                   ("annotations", JNull) ] ]) ])
           _ eq_refl).
Defined.

Lemma transform_items_pointwise (items items' : list JSON) :
  Wire.transform_items items = Fulfilled items' ->
  length items' = length items
  /\ forall i item, items !! i = Some item ->
       exists item', items' !! i = Some item' /\ Wire.transform_item item = Fulfilled item'.
Proof.
  revert items'. induction items as [| item rest IH]; intros items'; simpl.
  - intros [= <-]. split; [done |]. intros i item H. by rewrite lookup_nil in H.
  - destruct (Wire.transform_item item) as [item1 |] eqn:Hitem; [| discriminate].
    destruct (Wire.transform_items rest) as [rest1 |] eqn:Hrest; [| discriminate].
    intros [= <-]. destruct (IH rest1 eq_refl) as [Hlen Hpoint].
    split; [simpl; by rewrite Hlen |].
    intros [| i] item0 H; simpl in *.
    + injection H as <-. by exists item1.
    + by apply Hpoint.
Qed.

(** X18. What [transformHandlerResponse] keeps of an object: the members
    and their order, every member but [content] with its value, and the
    number of content items; item for item, the new content is the old one
    put through the callback (a text item cut down to [type] and [text],
    any other item as it was). *)
Theorem transform_keeps_shape (members members' : list (string * JSON)) :
  Wire.transformHandlerResponse (Some members) = Fulfilled (Some members') ->
  map fst members' = map fst members
  /\ (forall k, k <> "content" -> assoc k members' = assoc k members)
  /\ (forall items, assoc "content" members = Some (JArray items) ->
        exists items', assoc "content" members' = Some (JArray items')
          /\ length items' = length items
          /\ forall i item, items !! i = Some item ->
               exists item', items' !! i = Some item'
                 /\ Wire.transform_item item = Fulfilled item').
Proof.
  intros H. simpl in H.
  destruct (assoc "content" members) as [content |] eqn:Hcontent;
    [| simplify_eq; by repeat split].
  destruct content as [| b | n | s | items | inner];
    try (simpl in H;
         first [ discriminate
               | repeat (case_match; try discriminate); simplify_eq; by repeat split ]).
  destruct (Wire.transform_items items) as [items1 |] eqn:Hitems; [| discriminate].
  simplify_eq. repeat split.
  - apply set_member_names. by rewrite Hcontent.
  - intros k Hk. by apply assoc_set_member_ne.
  - intros items0 [= <-]. exists items1.
    split; [apply assoc_set_member_eq |]. by apply transform_items_pointwise.
Qed.

Lemma transform_keeps_shape_witness :
  map fst [ ("isError", JBool true);
            ("content", JArray [ JObject [ ("type", JString "text") ] ]) ]
  = map fst [ ("isError", JBool true);
              ("content", JArray [ JObject [ ("type", JString "text");
                                             ("annotations", JNull) ] ]) ].
Proof.
  exact (proj1 (transform_keeps_shape
                  [ ("isError", JBool true);
                    ("content", JArray [ JObject [ ("type", JString "text");
                                                   ("annotations", JNull) ] ]) ]
                  _ eq_refl)).
Defined.

Lemma transform_items_of_content (l : list Content) :
  Wire.transform_items (map Wire.of_content l) = Fulfilled (map Wire.of_content l).
Proof.
  induction l as [| [text] rest IH]; simpl; [done |]. by rewrite IH.
Qed.

(** X19. On the results the handlers of [createServer] build themselves, an
    optional [isError] and a [content] of text items,
    [transformHandlerResponse] on objects does what the handlers' embedding
    of it does, and returns the object unchanged. *)
Theorem transform_agrees (r : ToolResult) :
  Wire.transformHandlerResponse (Wire.of_result r)
    = Fulfilled (Wire.of_result (transformHandlerResponse r))
  /\ Wire.transformHandlerResponse (Wire.of_result r) = Fulfilled (Wire.of_result r).
Proof.
  assert (map (fun item => match item with Text t => Text t end) (content r) = content r)
    as Hid.
  { induction (content r) as [| [text] rest IH]; simpl; [done | by rewrite IH]. }
  assert (Wire.transformHandlerResponse (Wire.of_result r) = Fulfilled (Wire.of_result r))
    as Hsame.
  { unfold Wire.of_result, Wire.transformHandlerResponse.
    destruct (isError r); simpl; by rewrite transform_items_of_content. }
  split; [| done]. rewrite Hsame. unfold transformHandlerResponse, Wire.of_result. simpl.
  by rewrite Hid.
Qed.



